(** * Rayforge package validator: a shallow embedding of
      [scripts/validate_package.py] and the properties of its checks.

    The Python script threads three kinds of effects through its checks:
    exceptions (every check either returns or raises), the interpreter's
    module search path ([sys.path], changed and restored by the entry-point
    check) and console output.  They are modelled by a state-and-exception
    monad over the record [interp].  The filesystem is read only and is a
    finite map from resolved absolute paths to nodes.

    Python strings are modelled by [string], one character per code point
    below 256.  The metadata document is a tagged union [pyval] of the values
    the YAML loader delivers; mappings are finite maps with string keys (a
    key of another type never equals one of the string keys the script asks
    for). *)

From stdpp Require Import gmap strings list.
From Stdlib Require Import ZArith Ascii String.

Set Warnings "-register-all".

Open Scope string_scope.
Open Scope list_scope.

(** ** Strings *)

Module PyStr.

(** [str.isspace] on one code point below 256. *)
Definition isspace (c : ascii) : bool :=
  let n := nat_of_ascii c in
  (((9 <=? n) && (n <=? 13)) || ((28 <=? n) && (n <=? 32))
   || (n =? 133) || (n =? 160))%nat.

Definition mem_char (c : ascii) (chars : string) : bool :=
  existsb (Ascii.eqb c) (list_ascii_of_string chars).

(** [s.lstrip(chars)]: drops every leading character that is in [chars]. *)
Fixpoint lstrip_chars (chars s : string) : string :=
  match s with
  | EmptyString => EmptyString
  | String c s' => if mem_char c chars then lstrip_chars chars s' else s
  end.

Fixpoint lstrip (s : string) : string :=
  match s with
  | EmptyString => EmptyString
  | String c s' => if isspace c then lstrip s' else s
  end.

Fixpoint rstrip (s : string) : string :=
  match s with
  | EmptyString => EmptyString
  | String c s' =>
      match rstrip s' with
      | EmptyString => if isspace c then EmptyString else String c EmptyString
      | r => String c r
      end
  end.

(** [s.strip()] *)
Definition strip (s : string) : string := rstrip (lstrip s).

Definition is_empty (s : string) : bool :=
  match s with EmptyString => true | _ => false end.

(** [needle in s] on two strings. *)
Fixpoint contains (needle s : string) : bool :=
  String.prefix needle s
  || match s with
     | EmptyString => false
     | String _ s' => contains needle s'
     end.

(** [s.split(sep, 1)] for a one-character separator that occurs in [s]:
    the text before the first separator and the text after it. *)
Fixpoint split_once (sep : ascii) (s : string) : option (string * string) :=
  match s with
  | EmptyString => None
  | String c s' =>
      if Ascii.eqb c sep then Some (EmptyString, s')
      else match split_once sep s' with
           | Some (a, b) => Some (String c a, b)
           | None => None
           end
  end.

(** [s.split(sep)] for a one-character separator. *)
Fixpoint split (sep : ascii) (s : string) : list string :=
  match s with
  | EmptyString => [EmptyString]
  | String c s' =>
      if Ascii.eqb c sep then EmptyString :: split sep s'
      else match split sep s' with
           | hd :: tl => String c hd :: tl
           | [] => [String c EmptyString]
           end
  end.

Fixpoint join (sep : string) (l : list string) : string :=
  match l with
  | [] => EmptyString
  | [x] => x
  | x :: rest => x +:+ sep +:+ join sep rest
  end.

Definition all_chars (p : ascii -> bool) (s : string) : bool :=
  forallb p (list_ascii_of_string s).

End PyStr.

(** ** Python values *)

Inductive pyval :=
| PNone
| PBool (b : bool)
| PInt (z : Z)
| PStr (s : string)
| PList (l : list pyval)
| PDict (d : gmap string pyval).

(** The classes the schema may name in a rule's ["type"]. *)
Inductive pytype := TStr | TDict | TList | TInt | TBool | TNoneType.

Definition pytype_eqb (a b : pytype) : bool :=
  match a, b with
  | TStr, TStr | TDict, TDict | TList, TList
  | TInt, TInt | TBool, TBool | TNoneType, TNoneType => true
  | _, _ => false
  end.

(** [type(v)] *)
Definition type_of (v : pyval) : pytype :=
  match v with
  | PNone => TNoneType
  | PBool _ => TBool
  | PInt _ => TInt
  | PStr _ => TStr
  | PList _ => TList
  | PDict _ => TDict
  end.

(** [T.__name__] *)
Definition type_name (t : pytype) : string :=
  match t with
  | TStr => "str" | TDict => "dict" | TList => "list"
  | TInt => "int" | TBool => "bool" | TNoneType => "NoneType"
  end.

(** [isinstance(v, T)]; [bool] is a subclass of [int]. *)
Definition isinstance (v : pyval) (t : pytype) : bool :=
  pytype_eqb (type_of v) t
  || match v, t with PBool _, TInt => true | _, _ => false end.

(** Truth value of an object, as tested by [not v] and [if v]. *)
Definition truthy (v : pyval) : bool :=
  match v with
  | PNone => false
  | PBool b => b
  | PInt z => negb (z =? 0)%Z
  | PStr s => negb (PyStr.is_empty s)
  | PList l => match l with [] => false | _ => true end
  | PDict d => negb (bool_decide (d = ∅))
  end.

(** ** Failures *)

(** The exception classes that [main] tells apart. *)
Inductive exc_class :=
| ValueError | TypeError | FileNotFoundError | NameError
| YAMLError | OtherException | SystemExit.

(** One constructor for each [raise] of the script (with the line of the
    statement), one for the loader's parse error, one for [sys.exit(1)], one
    for the errors the Python runtime raises by itself and one for the
    [SystemExit] that the code of an imported package raises with
    [sys.exit(status)]. *)
Inductive failure :=
| EmptyField (key_name : string)                       (* l.41 *)
| MissingKey (full_key : string)                       (* l.49 *)
| WrongType (full_key expected actual : string)        (* l.55 *)
| InvalidVersion                                       (* l.78 *)
| NameMismatch                                         (* l.89 *)
| PlaceholderDetected                                  (* l.105 *)
| InvalidEmail                                         (* l.112 *)
| InvalidAsset                                         (* l.118 *)
| PathTraversal                                        (* l.121 *)
| AssetNotFound                                        (* l.127 *)
| MalformedRef                                         (* l.138 *)
| ModuleNotFound                                       (* l.150 *)
| AttributeNotFound                                    (* l.169 *)
| EmptyProvides                                        (* l.181 *)
| AssetsNotList                                        (* l.188 *)
| AssetNotMapping                                      (* l.191 *)
| WrongShape                                           (* l.255 *)
| ParseError                                           (* yaml.safe_load *)
| FileNotFound                                         (* sys.exit(1), l.219 *)
| Runtime (cls : exc_class) (what : string)
| PackageExit (status : Z).

Definition exc_of (e : failure) : exc_class :=
  match e with
  | EmptyField _ | MissingKey _ | InvalidVersion | NameMismatch
  | PlaceholderDetected | InvalidEmail | InvalidAsset | PathTraversal
  | MalformedRef | EmptyProvides => ValueError
  | WrongType _ _ _ | AssetsNotList | AssetNotMapping | WrongShape => TypeError
  | AssetNotFound | ModuleNotFound => FileNotFoundError
  | AttributeNotFound => NameError
  | ParseError => YAMLError
  | FileNotFound | PackageExit _ => SystemExit
  | Runtime cls _ => cls
  end.

(** The status a [SystemExit] carries. *)
Definition exit_status (e : failure) : Z :=
  match e with
  | PackageExit status => status
  | _ => 1
  end.

Definition AttributeError : failure := Runtime OtherException "AttributeError".
Definition KeyError : failure := Runtime OtherException "KeyError".
Definition ModuleNotFoundError : failure :=
  Runtime OtherException "ModuleNotFoundError".
Definition SyntaxError : failure := Runtime OtherException "SyntaxError".
Definition NotIterable : failure := Runtime TypeError "not iterable".
Definition NotSubscriptable : failure := Runtime TypeError "not subscriptable".
Definition BadIndex : failure := Runtime TypeError "indices must be integers".
Definition ExpectedString : failure :=
  Runtime TypeError "expected string or bytes-like object".

(** ** The interpreter state and the monad of checks *)

(** A resolved absolute path: its segments below the filesystem root. *)
Abbreviation path := (list string).

Record interp := Interp {
  sys_path : list path;      (* module search path, first entry first *)
  executed : list string;    (* modules whose code has run, latest first *)
  stdout : list string;      (* lines printed, latest first *)
  stderr : list string
}.

Inductive result (A : Type) :=
| Ok (a : A)
| Raise (e : failure).
Arguments Ok {A} a.
Arguments Raise {A} e.

Definition M (A : Type) : Type := interp -> result A * interp.

Definition ret {A} (a : A) : M A := fun st => (Ok a, st).

Definition raise {A} (e : failure) : M A := fun st => (Raise e, st).

Definition bind {A B} (m : M A) (k : A -> M B) : M B :=
  fun st =>
    match m st with
    | (Ok a, st') => k a st'
    | (Raise e, st') => (Raise e, st')
    end.

Notation "'let*' x ':=' m 'in' k" := (bind m (fun x => k))
  (at level 10, x pattern, m at level 100, k at level 200).
Notation "m >> k" := (bind m (fun _ => k))
  (at level 100, right associativity).

(** [try: body finally: cleanup] *)
Definition finally {A} (body : M A) (cleanup : M unit) : M A :=
  fun st =>
    let '(r, st1) := body st in
    match cleanup st1 with
    | (Ok _, st2) => (r, st2)
    | (Raise e, st2) => (Raise e, st2)
    end.

Definition print (line : string) : M unit :=
  fun st => (Ok tt, Interp (sys_path st) (executed st)
                           (line :: stdout st) (stderr st)).

Definition eprint (line : string) : M unit :=
  fun st => (Ok tt, Interp (sys_path st) (executed st)
                           (stdout st) (line :: stderr st)).

(** [for x in l: body(x)] *)
Fixpoint for_each {A} (l : list A) (body : A -> M unit) : M unit :=
  match l with
  | [] => ret tt
  | x :: rest => body x >> for_each rest body
  end.

(** What a check did from the state [st]. *)
Definition succeeds {A} (m : M A) (st : interp) : Prop :=
  exists a, fst (m st) = Ok a.

Definition fails_with {A} (m : M A) (st : interp) (e : failure) : Prop :=
  fst (m st) = Raise e.

(** A check respects a relation [R] on states and a property [P] of
    failures: from every state it ends in a state related to it, and what
    it raises has the property. *)
Definition respects {A} (R : interp -> interp -> Prop)
  (P : failure -> Prop) (m : M A) : Prop :=
  forall st, R st (snd (m st)) /\ forall e, fst (m st) = Raise e -> P e.

(** Nothing written on the error stream, and the search path as it
    was. *)
Definition same_frame (st st' : interp) : Prop :=
  stderr st' = stderr st /\ sys_path st' = sys_path st.

(** A failure that one of the handlers of [main] takes. *)
Definition handled (e : failure) : Prop := exc_of e <> SystemExit.

(** A failure that the asset and entry-point checks can raise when no
    package code is run: it is handled, and it is not the complaint about an
    empty [provides]. *)
Definition resolver_failure (e : failure) : Prop :=
  exc_of e <> SystemExit /\ e <> EmptyProvides.

(** A failure of the import of a parent package: the package is not found,
    its source does not parse, or its code leaves the process. *)
Definition import_failure (e : failure) : Prop :=
  e = ModuleNotFoundError \/ e = SyntaxError
  \/ exists status, e = PackageExit status.

(** What the import of packages can do to the state in this model: put
    entries in front of the search path and write on the error stream; the
    standard output is as it was. *)
Definition grows (st st' : interp) : Prop :=
  (exists added, sys_path st' = added ++ sys_path st)
  /\ stdout st' = stdout st.

(** An entry point whose module name has no dot, so that resolving it
    imports no parent package.  A value that is not a string, or a string
    without colon, never reaches the resolution. *)
Definition undotted_ref (entry_point : pyval) : bool :=
  match entry_point with
  | PStr ref =>
      match PyStr.split_once ":" ref with
      | Some (module_name, _) => negb (PyStr.contains "." module_name)
      | None => true
      end
  | _ => true
  end.

(** How a check ends when it has not failed by itself: it passes, or the
    code of an imported package has left the process. *)
Definition passes_or_exits {A} (r : result A) : Prop :=
  (exists a, r = Ok a) \/ exists status, r = Raise (PackageExit status).

(** ** Operators on Python values *)

(** [item in container] for a string [item]. *)
Definition py_in (item : string) (container : pyval) : M bool :=
  match container with
  | PStr s => ret (PyStr.contains item s)
  | PList l =>
      ret (existsb (fun v => match v with
                             | PStr s => bool_decide (s = item)
                             | _ => false
                             end) l)
  | PDict d => ret (bool_decide (is_Some (d !! item)))
  | PNone | PBool _ | PInt _ => raise NotIterable
  end.

(** [container[key]] for a string [key]. *)
Definition py_getitem (container : pyval) (key : string) : M pyval :=
  match container with
  | PDict d => match d !! key with
               | Some v => ret v
               | None => raise KeyError
               end
  | PStr _ | PList _ => raise BadIndex
  | PNone | PBool _ | PInt _ => raise NotSubscriptable
  end.

(** [obj.get(key, default)] *)
Definition py_get (obj : pyval) (key : string) (dflt : pyval) : M pyval :=
  match obj with
  | PDict d => ret (default dflt (d !! key))
  | _ => raise AttributeError
  end.

(** ** Regular expressions

    The two patterns the script relies on (its own e-mail pattern and the
    pattern of [semver.VersionInfo.parse]) use character classes,
    concatenation, alternation, repetition and the anchors [^] and [$].
    [re.match] anchors the match at the start of the string and accepts a
    match of any prefix.  Without [re.MULTILINE], [^] holds at the start of
    the string only, and [$] holds at its end and also just before a newline
    that is its last character. *)

Module Re.

Inductive regex :=
| Void
| Eps
| Bol                                    (* ^ *)
| Eol                                    (* $ *)
| Cls (ranges : list (ascii * ascii))    (* [a-z0-9_] *)
| Cat (r1 r2 : regex)
| Alt (r1 r2 : regex)
| Star (r : regex).

Definition Plus (r : regex) : regex := Cat r (Star r).
Definition Opt (r : regex) : regex := Alt r Eps.
Definition Chr (c : ascii) : regex := Cls [(c, c)].

Definition in_range (c : ascii) (rg : ascii * ascii) : bool :=
  ((nat_of_ascii (fst rg) <=? nat_of_ascii c)
   && (nat_of_ascii c <=? nat_of_ascii (snd rg)))%nat.

Definition in_class (ranges : list (ascii * ascii)) (c : ascii) : bool :=
  existsb (in_range c) ranges.

Definition newline : ascii := ascii_of_nat 10.

(** Where [$] holds: [rest] is what is left of the input. *)
Definition at_eol (rest : string) : bool :=
  match rest with
  | EmptyString => true
  | String c EmptyString => Ascii.eqb c newline
  | _ => false
  end.

(** Does [r] match the empty string here?  [start] tells whether the
    position is the start of the input, [rest] is the input left. *)
Fixpoint nullable (r : regex) (start : bool) (rest : string) : bool :=
  match r with
  | Void => false
  | Eps => true
  | Bol => start
  | Eol => at_eol rest
  | Cls _ => false
  | Cat r1 r2 => nullable r1 start rest && nullable r2 start rest
  | Alt r1 r2 => nullable r1 start rest || nullable r2 start rest
  | Star _ => true
  end.

(** What is left of [r] once it has read [c], the first character of
    [inp]. *)
Fixpoint deriv (c : ascii) (r : regex) (start : bool) (inp : string)
  : regex :=
  match r with
  | Void | Eps | Bol | Eol => Void
  | Cls ranges => if in_class ranges c then Eps else Void
  | Cat r1 r2 =>
      Alt (Cat (deriv c r1 start inp) r2)
          (if nullable r1 start inp then deriv c r2 start inp else Void)
  | Alt r1 r2 => Alt (deriv c r1 start inp) (deriv c r2 start inp)
  | Star r1 => Cat (deriv c r1 start inp) (Star r1)
  end.

Fixpoint match_from (r : regex) (start : bool) (s : string) : bool :=
  nullable r start s
  || match s with
     | EmptyString => false
     | String c s' => match_from (deriv c r start s) false s'
     end.

(** [re.match(pattern, s) is not None] *)
Definition re_match (pattern : regex) (s : string) : bool :=
  match_from pattern true s.

(** The language of a pattern, for the proofs: [denotes r start w rest]
    says that [r] matches exactly [w] at a position followed by [rest]. *)
Inductive denotes : regex -> bool -> string -> string -> Prop :=
| DEps start rest : denotes Eps start "" rest
| DBol rest : denotes Bol true "" rest
| DEol start rest : at_eol rest = true -> denotes Eol start "" rest
| DCls ranges start c rest :
    in_class ranges c = true ->
    denotes (Cls ranges) start (String c "") rest
| DCat r1 r2 start w1 w2 rest :
    denotes r1 start w1 (w2 +:+ rest) ->
    denotes r2 (start && PyStr.is_empty w1) w2 rest ->
    denotes (Cat r1 r2) start (w1 +:+ w2) rest
| DAltL r1 r2 start w rest :
    denotes r1 start w rest -> denotes (Alt r1 r2) start w rest
| DAltR r1 r2 start w rest :
    denotes r2 start w rest -> denotes (Alt r1 r2) start w rest
| DStarNil r start rest : denotes (Star r) start "" rest
| DStarStep r start c w1 w2 rest :
    denotes r start (String c w1) (w2 +:+ rest) ->
    denotes (Star r) false w2 rest ->
    denotes (Star r) start (String c w1 +:+ w2) rest.

End Re.

(** A string whose last character is a newline. *)
Fixpoint ends_with_newline (s : string) : bool :=
  match s with
  | EmptyString => false
  | String c EmptyString => Ascii.eqb c Re.newline
  | String _ s' => ends_with_newline s'
  end.

(** The pattern of [_check_author_content]:
    [^[a-zA-Z0-9_.+-]+@[a-zA-Z0-9-]+\.[a-zA-Z0-9-.]+$] *)
Definition alnum : list (ascii * ascii) :=
  [("a", "z"); ("A", "Z"); ("0", "9")]%char.

Definition email_local : list (ascii * ascii) :=
  alnum ++ [("_", "_"); (".", "."); ("+", "+"); ("-", "-")]%char.

Definition email_domain : list (ascii * ascii) :=
  alnum ++ [("-", "-")]%char.

Definition email_tld : list (ascii * ascii) :=
  alnum ++ [("-", "-"); (".", ".")]%char.

Definition email_regex : Re.regex :=
  Re.Cat Re.Bol
    (Re.Cat (Re.Plus (Re.Cls email_local))
       (Re.Cat (Re.Chr "@")
          (Re.Cat (Re.Plus (Re.Cls email_domain))
             (Re.Cat (Re.Chr ".")
                (Re.Cat (Re.Plus (Re.Cls email_tld)) Re.Eol))))).

(** The pattern of the semver package, which [semver.VersionInfo.parse]
    matches against the version; [ValueError] when there is no match.  It
    reads: start of string; three numeric fields separated by dots, each
    [0] or a digit from 1 to 9 followed by digits; optionally [-] and
    dot-separated pre-release identifiers, each a numeric field or digits,
    one letter or hyphen, then letters, digits and hyphens; optionally [+]
    and dot-separated build identifiers, each one or more letters, digits
    and hyphens; end of string. *)
Module Semver.
Import Re.

Definition digit : regex := Cls [("0", "9")]%char.
Definition numeric : regex :=
  Alt (Chr "0") (Cat (Cls [("1", "9")]%char) (Star digit)).
Definition ident_char : regex :=
  Cls [("0", "9"); ("a", "z"); ("A", "Z"); ("-", "-")]%char.
Definition pre_ident : regex :=
  Alt numeric
    (Cat (Star digit)
       (Cat (Cls [("a", "z"); ("A", "Z"); ("-", "-")]%char)
          (Star ident_char))).
Definition prerelease : regex :=
  Cat pre_ident (Star (Cat (Chr ".") pre_ident)).
Definition build : regex :=
  Cat (Plus ident_char) (Star (Cat (Chr ".") (Plus ident_char))).

Definition pattern : regex :=
  Cat Bol
    (Cat numeric
       (Cat (Chr ".")
          (Cat numeric
             (Cat (Chr ".")
                (Cat numeric
                   (Cat (Opt (Cat (Chr "-") prerelease))
                      (Cat (Opt (Cat (Chr "+") build)) Eol))))))).

(** The longest prefix of decimal digits, and what follows it. *)
Fixpoint take_digits (s : string) : string * string :=
  match s with
  | EmptyString => (EmptyString, EmptyString)
  | String c s' =>
      if in_class [("0", "9")]%char c
      then let '(digits, rest) := take_digits s' in (String c digits, rest)
      else (EmptyString, s)
  end.

Definition drop_first (s : string) : string :=
  match s with
  | EmptyString => EmptyString
  | String _ s' => s'
  end.

(** The groups [major], [minor] and [patch] of a version that the pattern
    matches. *)
Definition numeric_fields (version : string) : list string :=
  let '(major, rest1) := take_digits version in
  let '(minor, rest2) := take_digits (drop_first rest1) in
  let '(patch, _) := take_digits (drop_first rest2) in
  [major; minor; patch].

(** [int(digits)] raises [ValueError] for a string of more than 4300
    digits (the interpreter's limit on integer string conversion). *)
Definition int_converts (digits : string) : bool :=
  (N.of_nat (String.length digits) <=? 4300)%N.

(** [semver.VersionInfo.parse(version)] returns ([true]) or raises
    [ValueError] ([false]): the pattern has to match the whole string (a
    final newline, which [$] alone lets through, is refused), and the three
    numeric fields are converted with [int]. *)
Definition parse (version : string) : bool :=
  re_match pattern version
  && negb (ends_with_newline version)
  && forallb int_converts (numeric_fields version).

End Semver.

(** ** Paths and the filesystem *)

(** [pathlib.PurePosixPath(s)]: an anchor (empty for a relative path, one
    slash, or two for a string that starts with exactly two) and the
    segments between slashes, without the empty ones and the single dots. *)
Record PurePath := mkPath {
  anchor : string;
  segments : list string
}.

Definition path_anchor (s : string) : string :=
  match s with
  | String "/" (String "/" (String "/" _)) => "/"
  | String "/" (String "/" _) => "//"
  | String "/" _ => "/"
  | _ => ""
  end.

Definition kept_segment (seg : string) : bool :=
  negb (bool_decide (seg = "")) && negb (bool_decide (seg = ".")).

Definition Path (s : string) : PurePath :=
  mkPath (path_anchor s) (filter (fun seg => kept_segment seg = true)
                                 (PyStr.split "/" s)).

(** [p.parts] *)
Definition parts (p : PurePath) : list string :=
  if bool_decide (anchor p = "") then segments p
  else anchor p :: segments p.

(** [root_path / path_str], for a resolved absolute [root_path]: an
    absolute right operand replaces the left one. *)
Definition joinpath (root_path : path) (path_str : string) : path :=
  let p := Path path_str in
  if bool_decide (anchor p = "") then root_path ++ segments p
  else segments p.

(** The text of a file, as what the two parsers of the script make of it:
    [yaml.safe_load] ([None]: [yaml.YAMLError]) and [ast.parse] ([None]:
    [SyntaxError]). *)
Inductive expr :=
| Name (id : string)
| Attribute (value : expr) (attr : string)
| Subscript (value : expr)
| Starred (value : expr)
| TupleT (elts : list expr)
| ListT (elts : list expr).

Inductive stmt :=
| FunctionDef (name : string) (body : list stmt)
| AsyncFunctionDef (name : string) (body : list stmt)
| ClassDef (name : string) (body : list stmt)
| Assign (targets : list expr)
| AugAssign (target : expr)
| AnnAssign (target : expr)
| If (body orelse : list stmt)
| SysExit (status : Z)              (* sys.exit(status) *)
| SysPathInsert0 (entry : list string)   (* sys.path.insert(0, entry) *)
| PrintToStderr (message : string)  (* print(message, file=sys.stderr) *)
| OtherStmt.

Record text := Text {
  as_yaml : option pyval;
  as_python : option (list stmt)
}.

Inductive node :=
| Dir
| File (content : text).

(** The filesystem: the nodes at resolved absolute paths (no symbolic
    links).  The root directory [[]] always exists. *)
Abbreviation filesystem := (gmap path node).

Definition is_dir (fs : filesystem) (p : path) : bool :=
  match p, fs !! p with
  | [], _ => true
  | _, Some Dir => true
  | _, _ => false
  end.

Definition is_file (fs : filesystem) (p : path) : bool :=
  match p, fs !! p with
  | _ :: _, Some (File _) => true
  | _, _ => false
  end.

(** Path resolution by the operating system: from the directory [cur],
    follow [segs]; [..] goes to the parent directory. *)
Fixpoint walk (fs : filesystem) (cur : path) (segs : list string)
  : option path :=
  match segs with
  | [] => Some cur
  | seg :: rest =>
      if is_dir fs cur then
        if bool_decide (seg = "..") then walk fs (removelast cur) rest
        else if bool_decide (is_Some (fs !! (cur ++ [seg])))
             then walk fs (cur ++ [seg]) rest
             else None
      else None
  end.

(** [p.exists()] *)
Definition path_exists (fs : filesystem) (p : path) : bool :=
  bool_decide (is_Some (walk fs [] p)).

(** ** Module resolution

    [importlib.util.find_spec(name)] is the standard library's; what
    follows models its path-based finder.  A name without a dot is looked
    up in the entries of [sys.path], in order: an entry holds the module as
    a package ([name/__init__.py]), as a module ([name.py]) or as a portion
    of a namespace package (a directory [name], which has no origin).  For
    a dotted name the parent package is imported first, which runs its
    code (see [exec_module]), and the last segment is looked up in the
    parent's [__path__]; a parent that cannot be found raises
    [ModuleNotFoundError].  Built-in and frozen modules, extension modules
    and the cache [sys.modules] are left out: the properties below that rest
    on the outcome of the lookup take it as a hypothesis. *)

Record ModuleSpec := Spec {
  origin : option path;
  submodule_search_locations : option (list path)
}.

Fixpoint path_find (fs : filesystem) (name : string) (entries : list path)
  (portions : list path) : option ModuleSpec :=
  match entries with
  | [] =>
      match portions with
      | [] => None
      | _ => Some (Spec None (Some (rev portions)))
      end
  | d :: rest =>
      if is_file fs (d ++ [name; "__init__.py"]) then
        Some (Spec (Some (d ++ [name; "__init__.py"])) (Some [d ++ [name]]))
      else if is_file fs (d ++ [name +:+ ".py"]) then
        Some (Spec (Some (d ++ [name +:+ ".py"])) None)
      else if is_dir fs (d ++ [name]) then
        path_find fs name rest ((d ++ [name]) :: portions)
      else path_find fs name rest portions
  end.

(** [sys.path.insert(0, entry)] and [sys.path.pop(0)] *)
Definition sys_path_insert0 (entry : path) : M unit :=
  fun st => (Ok tt, Interp (entry :: sys_path st) (executed st)
                           (stdout st) (stderr st)).

Definition sys_path_pop0 : M unit :=
  fun st =>
    match sys_path st with
    | [] => (Raise (Runtime OtherException "IndexError"), st)
    | _ :: rest =>
        (Ok tt, Interp rest (executed st) (stdout st) (stderr st))
    end.

(** What running a top-level statement does to the interpreter.  Three
    kinds of statements stand for what the code of a package can do when it
    is imported: leave the process, change the search path, write on the
    error stream.  Definitions and the other statements have no effect
    here. *)
Definition run_stmt (node : stmt) : M unit :=
  match node with
  | SysExit status => raise (PackageExit status)
  | SysPathInsert0 entry => sys_path_insert0 entry
  | PrintToStderr message => eprint message
  | _ => ret tt
  end.

(** Running the code of a module, when it is imported: the module is
    recorded, its source is read and parsed, and its body is run. *)
Definition exec_module (fs : filesystem) (fullname : string)
  (module_path : path) : M unit :=
  (fun st => (Ok tt, Interp (sys_path st) (fullname :: executed st)
                            (stdout st) (stderr st))) >>
  match fs !! module_path with
  | Some (File content) =>
      match as_python content with
      | Some body => for_each body run_stmt
      | None => raise SyntaxError
      end
  | _ => ret tt
  end.

Fixpoint find_in (fs : filesystem) (search : list path) (parent : string)
  (names : list string) : M (option ModuleSpec) :=
  match names with
  | [] => ret None
  | [name] => ret (path_find fs name search [])
  | name :: rest =>
      let fullname :=
        if PyStr.is_empty parent then name else parent +:+ "." +:+ name in
      match path_find fs name search [] with
      | None => raise ModuleNotFoundError
      | Some spec =>
          (match origin spec with
           | Some module_path => exec_module fs fullname module_path
           | None => ret tt
           end) >>
          match submodule_search_locations spec with
          | Some locations => find_in fs locations fullname rest
          | None => raise ModuleNotFoundError
          end
      end
  end.

Definition find_spec (fs : filesystem) (name : string)
  : M (option ModuleSpec) :=
  fun st => find_in fs (sys_path st) "" (PyStr.split "." name) st.

(** The state [st] with another search path. *)
Definition with_sys_path (entries : list path) (st : interp) : interp :=
  Interp entries (executed st) (stdout st) (stderr st).

(** ** The script *)

Definition METADATA_FILENAME : string := "rayforge-package.yaml".

Record rule := Rule {
  type : pytype;
  required : bool
}.

(** A schema is a [dict] literal: its keys are visited in the order they
    are written. *)
Abbreviation schema := (list (string * rule)).

Definition SCHEMA : schema :=
  [("name", Rule TStr true);
   ("description", Rule TStr true);
   ("author", Rule TDict true);
   ("provides", Rule TDict true)].

Definition AUTHOR_SCHEMA : schema :=
  [("name", Rule TStr true);
   ("email", Rule TStr true)].

(** [value.strip()] *)
Definition py_strip (value : pyval) : M string :=
  match value with
  | PStr s => ret (PyStr.strip s)
  | _ => raise AttributeError
  end.

(** [re.match(pattern, value) is not None] *)
Definition py_re_match (pattern : Re.regex) (value : pyval) : M bool :=
  match value with
  | PStr s => ret (Re.re_match pattern s)
  | _ => raise ExpectedString
  end.

(** [value != expected] for a string [expected]. *)
Definition py_ne (value : pyval) (expected : string) : bool :=
  match value with
  | PStr s => negb (bool_decide (s = expected))
  | _ => true
  end.

Definition _check_non_empty_str (value : pyval) (key_name : string)
  : M unit :=
  if negb (truthy value) then raise (EmptyField key_name)
  else
    let* stripped := py_strip value in
    if PyStr.is_empty stripped then raise (EmptyField key_name)
    else ret tt.

Fixpoint _validate_dict_schema (data : pyval) (sch : schema)
  (parent_key : string) : M unit :=
  match sch with
  | [] => ret tt
  | (key, rules) :: rest =>
      let full_key :=
        if PyStr.is_empty parent_key then key
        else parent_key +:+ "." +:+ key in
      let* missing :=
        (if required rules
         then let* present := py_in key data in ret (negb present)
         else ret false) in
      (if missing then raise (MissingKey full_key) else ret tt) >>
      let* present := py_in key data in
      (if present then
         let* actual_value := py_getitem data key in
         if negb (isinstance actual_value (type rules))
         then raise (WrongType full_key (type_name (type rules))
                       (type_name (type_of actual_value)))
         else ret tt
       else ret tt) >>
      _validate_dict_schema data rest parent_key
  end.

Definition validate_schema (data : pyval) : M unit :=
  print "-> Running schema validation..." >>
  _validate_dict_schema data SCHEMA "" >>
  let* author := py_get data "author" (PDict ∅) in
  _validate_dict_schema author AUTHOR_SCHEMA "author" >>
  print "   ... Schema OK".

Definition _check_tag (tag : option string) : M unit :=
  match tag with
  | None => ret tt
  | Some t =>
      if PyStr.is_empty t then ret tt
      else if Semver.parse (PyStr.lstrip_chars "v" t)
           then print ("   ... Version tag '" +:+ t +:+ "' OK")
           else raise InvalidVersion
  end.

Definition _check_package_name (metadata_name : pyval)
  (expected_name : option string) : M unit :=
  match expected_name with
  | None => ret tt
  | Some expected =>
      if PyStr.is_empty expected then ret tt
      else if py_ne metadata_name expected then raise NameMismatch
           else print ("   ... Package name '" +:+ expected +:+ "' OK")
  end.

Definition _check_author_content (author_data : pyval) : M unit :=
  let* name := py_get author_data "name" (PStr "") in
  let* email := py_get author_data "email" (PStr "") in
  _check_non_empty_str name "author.name" >>
  _check_non_empty_str email "author.email" >>
  let* placeholder := py_in "your-github-username" name in
  (if placeholder then raise PlaceholderDetected else ret tt) >>
  let* matched := py_re_match email_regex email in
  if negb matched then raise InvalidEmail else ret tt.

Definition node_defines (attr_name : string) (node : stmt) : bool :=
  match node with
  | FunctionDef name _ | ClassDef name _ => bool_decide (name = attr_name)
  | Assign targets =>
      existsb (fun target => match target with
                             | Name id => bool_decide (id = attr_name)
                             | _ => false
                             end) targets
  | _ => false
  end.

(** The loop over [tree.body] of [_check_code_entry_point], with its two
    [return]s and the [raise] after it. *)
Fixpoint scan_body (entry_point attr_name : string) (body : list stmt)
  : M unit :=
  match body with
  | [] => raise AttributeNotFound
  | node :: rest =>
      if node_defines attr_name node
      then print ("   ... Code entry point '" +:+ entry_point +:+ "' OK")
      else scan_body entry_point attr_name rest
  end.

Section Checks.

Variable fs : filesystem.

Definition _check_asset_path (path_str : pyval) (root_path : path)
  : M unit :=
  match path_str with
  | PStr s =>
      if PyStr.is_empty s then raise InvalidAsset
      else if bool_decide (".." ∈ parts (Path s)) then raise PathTraversal
      else if negb (path_exists fs (joinpath root_path s))
           then raise AssetNotFound
           else ret tt
  | _ => raise InvalidAsset
  end.

(** [module_path.read_text()] then [ast.parse] *)
Definition read_and_parse (module_path : path) : M (list stmt) :=
  match fs !! module_path with
  | Some (File content) =>
      match as_python content with
      | Some body => ret body
      | None => raise SyntaxError
      end
  | _ => raise (Runtime FileNotFoundError "read_text")
  end.

Definition _check_code_entry_point (entry_point : pyval)
  (root_path : path) : M unit :=
  let* has_colon := py_in ":" entry_point in
  if negb has_colon then raise MalformedRef
  else
    match entry_point with
    | PStr ref =>
        match PyStr.split_once ":" ref with
        | Some (module_name, attr_name) =>
            sys_path_insert0 root_path >>
            finally
              (let* spec := find_spec fs module_name in
               match spec with
               | Some (Spec (Some module_path) _) =>
                   let* body := read_and_parse module_path in
                   scan_body ref attr_name body
               | _ => raise ModuleNotFound
               end)
              sys_path_pop0
        | None => raise AttributeError
        end
    | _ => raise AttributeError
    end.

Definition _check_provides (provides_data : pyval) (root_path : path)
  : M unit :=
  let* empty :=
    (if negb (truthy provides_data) then ret true
     else
       let* has_code := py_in "code" provides_data in
       if has_code then ret false
       else let* has_assets := py_in "assets" provides_data in
            ret (negb has_assets)) in
  (if empty then raise EmptyProvides else ret tt) >>
  let* has_assets := py_in "assets" provides_data in
  (if has_assets then
     let* assets := py_getitem provides_data "assets" in
     match assets with
     | PList l =>
         for_each l (fun asset_info =>
           match asset_info with
           | PDict _ =>
               let* path_str := py_get asset_info "path" PNone in
               _check_asset_path path_str root_path
           | _ => raise AssetNotMapping
           end)
     | _ => raise AssetsNotList
     end
   else ret tt) >>
  let* has_code := py_in "code" provides_data in
  if has_code then
    let* code := py_getitem provides_data "code" in
    _check_code_entry_point code root_path
  else ret tt.

Definition validate_content (data : pyval) (root_path : path)
  (tag name : option string) : M unit :=
  print "-> Running content validation..." >>
  _check_tag tag >>
  let* metadata_name := py_get data "name" PNone in
  _check_package_name metadata_name name >>
  let* metadata_name := py_get data "name" PNone in
  _check_non_empty_str metadata_name "name" >>
  let* description := py_get data "description" PNone in
  _check_non_empty_str description "description" >>
  let* author := py_get data "author" (PDict ∅) in
  _check_author_content author >>
  let* provides := py_get data "provides" (PDict ∅) in
  _check_provides provides root_path >>
  print "   ... Content OK".

Definition _load_metadata (metadata_file : path) : M pyval :=
  match fs !! metadata_file with
  | Some (File content) =>
      match as_yaml content with
      | Some document => ret document
      | None => raise ParseError
      end
  | _ =>
      eprint "ERROR: Metadata file not found" >> raise FileNotFound
  end.

(** The body of the [try] block of [main]. *)
Definition pipeline (root_path : path) (tag name : option string)
  : M unit :=
  let* metadata := _load_metadata (root_path ++ [METADATA_FILENAME]) in
  (if negb (isinstance metadata TDict) then raise WrongShape else ret tt) >>
  validate_schema metadata >>
  validate_content metadata root_path tag name >>
  print "SUCCESS: Your package metadata looks great!".

(** How a call of [main] ends: it returns a status, or an exception that
    no handler catches ([SystemExit]) leaves it. *)
Inductive outcome :=
| Returns (status : Z)
| Exits (status : Z).

(** [main], after the arguments are parsed and the root is resolved. *)
Definition main (root_path : path) (tag name : option string)
  : interp -> outcome * interp :=
  fun st =>
    let '(_, st0) :=
      print ("Validating package at: /" +:+ PyStr.join "/" root_path) st in
    match pipeline root_path tag name st0 with
    | (Ok _, st1) => (Returns 0, st1)
    | (Raise e, st1) =>
        match exc_of e with
        | ValueError | TypeError | FileNotFoundError | NameError =>
            (Returns 1, snd (eprint "ERROR: Validation failed." st1))
        | YAMLError =>
            (Returns 1, snd (eprint "ERROR: Could not parse." st1))
        | OtherException =>
            (Returns 1,
             snd (eprint "ERROR: An unexpected error occurred." st1))
        | SystemExit => (Exits (exit_status e), st1)
        end
    end.

(** The exit status of the process, from [sys.exit(main())]. *)
Definition exit_code (o : outcome) : Z :=
  match o with
  | Returns status => status
  | Exits status => status
  end.

End Checks.

(** What [_check_provides] does to a mapping once it has found [code] or
    [assets] in it: the loop over the assets, then the entry point. *)
Definition provides_checks (fs : filesystem) (provides : gmap string pyval)
  (root_path : path) : M unit :=
  (match provides !! "assets" with
   | Some (PList l) =>
       for_each l (fun asset_info =>
         match asset_info with
         | PDict _ =>
             let* path_str := py_get asset_info "path" PNone in
             _check_asset_path fs path_str root_path
         | _ => raise AssetNotMapping
         end)
   | Some _ => raise AssetsNotList
   | None => ret tt
   end) >>
  match provides !! "code" with
  | Some code => _check_code_entry_point fs code root_path
  | None => ret tt
  end.

(** The entry point that a metadata document declares, if any, and the
    one of the package at [root_path]. *)
Definition declared_code (data : pyval) : option pyval :=
  match data with
  | PDict doc =>
      match doc !! "provides" with
      | Some (PDict provides) => provides !! "code"
      | _ => None
      end
  | _ => None
  end.

Definition package_entry_point (fs : filesystem) (root_path : path)
  : option pyval :=
  match fs !! (root_path ++ [METADATA_FILENAME]) with
  | Some (File content) =>
      match as_yaml content with
      | Some data => declared_code data
      | None => None
      end
  | _ => None
  end.

(** A package whose validation imports nothing: it declares no entry
    point, or one whose module name has no dot. *)
Definition imports_nothing (fs : filesystem) (root_path : path) : bool :=
  match package_entry_point fs root_path with
  | Some code => undotted_ref code
  | None => true
  end.

(** ** The specification's words, for comparison with the script *)

(** The shape of an e-mail address: one or more characters of
    [A-Za-z0-9_.+-], an at sign, one or more of [A-Za-z0-9-], a dot, one or
    more of [A-Za-z0-9-.]. *)
Definition char_between (lo hi c : ascii) : bool :=
  ((nat_of_ascii lo <=? nat_of_ascii c)
   && (nat_of_ascii c <=? nat_of_ascii hi))%nat.

Definition is_alnum (c : ascii) : bool :=
  char_between "A" "Z" c || char_between "a" "z" c || char_between "0" "9" c.

Definition local_char (c : ascii) : bool :=
  is_alnum c || PyStr.mem_char c "_.+-".

Definition domain_char (c : ascii) : bool :=
  is_alnum c || PyStr.mem_char c "-".

Definition tld_char (c : ascii) : bool :=
  is_alnum c || PyStr.mem_char c "-.".

Definition one_or_more (p : ascii -> bool) (s : string) : bool :=
  negb (PyStr.is_empty s) && PyStr.all_chars p s.

Definition email_shape (email : string) : Prop :=
  exists local domain tld,
    email = local +:+ "@" +:+ domain +:+ "." +:+ tld
    /\ one_or_more local_char local = true
    /\ one_or_more domain_char domain = true
    /\ one_or_more tld_char tld = true.

(** A non-negative integer in decimal, without leading zeros. *)
Definition numeral (s : string) : bool :=
  match s with
  | EmptyString => false
  | String c EmptyString => char_between "0" "9" c
  | String c rest =>
      char_between "1" "9" c && PyStr.all_chars (char_between "0" "9") rest
  end.

(** A top-level statement that defines [attr_name]: a function or class
    definition of that name, or an assignment one of whose targets is the
    bare name. *)
Inductive defines (attr_name : string) : stmt -> Prop :=
| DefinesFunction body : defines attr_name (FunctionDef attr_name body)
| DefinesClass body : defines attr_name (ClassDef attr_name body)
| DefinesAssign targets :
    Name attr_name ∈ targets -> defines attr_name (Assign targets).


(** Removing one leading [v], as the specification words the tag check. *)
Definition strip_leading_v (tag : string) : string :=
  match tag with
  | String "v" rest => rest
  | _ => tag
  end.



(** Where a path leads on disk, and whether that is inside [root]. *)
Definition resolves_under (fs : filesystem) (root p : path) : Prop :=
  exists location, walk fs [] p = Some location /\ root `prefix_of` location.

(** The name of a key in messages: [parent.key], or [key] at top level. *)
Definition full_key (parent_key key : string) : string :=
  if PyStr.is_empty parent_key then key else parent_key +:+ "." +:+ key.

(** A mapping meets a schema entry: the key is there with a value of the
    expected class, or it is absent and not required. *)
Definition entry_met (doc : gmap string pyval) (entry : string * rule)
  : bool :=
  match doc !! fst entry with
  | Some v => isinstance v (type (snd entry))
  | None => negb (required (snd entry))
  end.

(** An entry of [assets] that is in order: a mapping whose [path] is a
    non-empty string without a [..] segment that exists once joined to the
    package root. *)
Definition asset_in_order (fs : filesystem) (root_path : path)
  (asset_info : pyval) : Prop :=
  exists entry path_str,
    asset_info = PDict entry
    /\ entry !! "path" = Some (PStr path_str)
    /\ path_str <> ""
    /\ (".." ∉ parts (Path path_str))
    /\ path_exists fs (joinpath root_path path_str) = true.

(** ** Sample inputs *)

Module Sample.

(** An interpreter whose search path holds the standard library. *)
Definition st0 : interp := Interp [["usr"; "lib"; "python3"]] [] [] [].

Definition author (name email : string) : gmap string pyval :=
  {[ "name" := PStr name; "email" := PStr email ]}.

Definition python (body : list stmt) : node := File (Text None (Some body)).

Definition data : node := File (Text None None).

(** The document of the specification's end-to-end scenario, with the
    e-mail and the [provides] section left open. *)
Definition document (email : string) (provides : gmap string pyval)
  : pyval :=
  PDict {[ "name" := PStr "pkg";
           "description" := PStr "d";
           "author" := PDict (author "A" email);
           "provides" := PDict provides ]}.

(** A package at [/pkg] with a module [m], a package [sub] with a module
    [sub.mod] and an asset; outside it, a standard library with a module
    [json], and [/etc/passwd]. *)
Definition tree (metadata : pyval) : filesystem :=
  list_to_map
    [(["pkg"], Dir);
     (["pkg"; "rayforge-package.yaml"], File (Text (Some metadata) None));
     (["pkg"; "m.py"], python [OtherStmt; FunctionDef "f" []]);
     (["pkg"; "sub"], Dir);
     (["pkg"; "sub"; "__init__.py"], python []);
     (["pkg"; "sub"; "mod.py"],
       python [Assign [Name "g"];
               FunctionDef "h" [FunctionDef "nested" []]]);
     (["pkg"; "assets"], Dir);
     (["pkg"; "assets"; "x.png"], data);
     (["usr"], Dir);
     (["usr"; "lib"], Dir);
     (["usr"; "lib"; "python3"], Dir);
     (["usr"; "lib"; "python3"; "json.py"],
       python [FunctionDef "loads" []]);
     (["etc"], Dir);
     (["etc"; "passwd"], data)].

Definition root : path := ["pkg"].

(** The same tree, with a package [sub] whose [__init__.py] leaves the
    process with [sys.exit(status)]. *)
Definition exiting_tree (status : Z) (metadata : pyval) : filesystem :=
  <[ ["pkg"; "sub"; "__init__.py"] := python [SysExit status] ]>
    (tree metadata).

End Sample.

(** * Properties *)

(** ** The monad *)

Lemma bind_ok {A B} (m : M A) (k : A -> M B) st a st' :
  m st = (Ok a, st') -> bind m k st = k a st'.
Proof. intros H. unfold bind. now rewrite H. Qed.

(** Fail-fast: once a step raises, the rest of the sequence does not run;
    the failure and the state at the failure are the sequence's. *)
Lemma bind_raise {A B} (m : M A) (k : A -> M B) st e st' :
  m st = (Raise e, st') -> bind m k st = (Raise e, st').
Proof. intros H. unfold bind. now rewrite H. Qed.

Lemma bind_inv_ok {A B} (m : M A) (k : A -> M B) st b st2 :
  bind m k st = (Ok b, st2) ->
  exists a st1, m st = (Ok a, st1) /\ k a st1 = (Ok b, st2).
Proof.
  unfold bind. destruct (m st) as [[a | e] st1]; intros H.
  - eauto.
  - discriminate.
Qed.

Lemma succeeds_unit (m : M unit) st :
  succeeds m st <-> fst (m st) = Ok tt.
Proof.
  unfold succeeds. split.
  - intros [[] H]. exact H.
  - eauto.
Qed.

Lemma succeeds_not_fails {A} (m : M A) st e :
  succeeds m st -> ~ fails_with m st e.
Proof. unfold succeeds, fails_with. intros [a Ha] Hf. congruence. Qed.

(** ** Checks that respect a relation on states *)

Section Frame.

Variable R : interp -> interp -> Prop.
Variable P : failure -> Prop.
Hypothesis R_refl : forall st, R st st.
Hypothesis R_trans : forall a b c, R a b -> R b c -> R a c.

Lemma respects_ret {A} (a : A) : respects R P (ret a).
Proof. intros st. split; [apply R_refl | discriminate]. Qed.

Lemma respects_raise {A} (e : failure) : P e -> respects R P (@raise A e).
Proof.
  intros He st. split; [apply R_refl |]. now intros e' [= <-].
Qed.

Lemma respects_bind {A B} (m : M A) (k : A -> M B) :
  respects R P m -> (forall a, respects R P (k a)) ->
  respects R P (bind m k).
Proof.
  intros Hm Hk st. unfold bind.
  destruct (Hm st) as [HR HP]. destruct (m st) as [[a | e] st1].
  - destruct (Hk a st1) as [HR' HP']. simpl in HR.
    split; [eapply R_trans; eauto | exact HP'].
  - split; [exact HR |].
    intros e' [= <-]. now apply HP.
Qed.

Lemma respects_bind_value {A B} (m : M A) (k : A -> M B) :
  respects R P m ->
  (forall a st st1, m st = (Ok a, st1) -> respects R P (k a)) ->
  respects R P (bind m k).
Proof.
  intros Hm Hk st. unfold bind.
  destruct (Hm st) as [HR HP]. destruct (m st) as [[a | e] st1] eqn:Hst.
  - destruct (Hk a st st1 Hst st1) as [HR' HP']. simpl in HR.
    split; [eapply R_trans; eauto | exact HP'].
  - split; [exact HR |].
    intros e' [= <-]. now apply HP.
Qed.

Lemma respects_for_each {A} (l : list A) (body : A -> M unit) :
  (forall x, respects R P (body x)) -> respects R P (for_each l body).
Proof.
  intros Hbody. induction l as [| x rest IH]; simpl.
  - apply respects_ret.
  - apply respects_bind; [apply Hbody | intros _; exact IH].
Qed.

Lemma respects_state {A} (f : interp -> result A * interp) :
  (forall st, R st (snd (f st))) ->
  (forall st e, fst (f st) = Raise e -> P e) ->
  respects R P f.
Proof. intros H1 H2 st. split; [apply H1 | apply H2]. Qed.

End Frame.

Lemma respects_implies {A} (R : interp -> interp -> Prop)
  (P P' : failure -> Prop) (m : M A) :
  (forall e, P e -> P' e) -> respects R P m -> respects R P' m.
Proof.
  intros HP Hm st. destruct (Hm st) as [H1 H2]. split; [exact H1 |].
  intros e He. now apply HP, H2.
Qed.

(** ** Schema validation *)

(** On a mapping, the validation of one schema entry reads the document
    only through the lookup of the entry's key. *)
Lemma validate_dict_schema_agree (doc doc' : gmap string pyval)
  (sch : schema) (parent_key : string) (st : interp) :
  (forall key, key ∈ sch.*1 -> doc' !! key = doc !! key) ->
  _validate_dict_schema (PDict doc') sch parent_key st
  = _validate_dict_schema (PDict doc) sch parent_key st.
Proof.
  revert st. induction sch as [| [key rules] rest IH]; intros st Hagree.
  - reflexivity.
  - assert (Hkey : doc' !! key = doc !! key)
      by (apply Hagree; simpl; apply list_elem_of_here).
    assert (Hrest : forall k, k ∈ rest.*1 -> doc' !! k = doc !! k)
      by (intros k Hk; apply Hagree; simpl; now apply list_elem_of_further).
    simpl. unfold bind, py_in, py_getitem, ret, raise.
    rewrite Hkey.
    destruct (required rules), (doc !! key) as [v |]; simpl;
      try destruct (isinstance v (type rules)); simpl;
      auto using IH.
Qed.

(** C9. Schema validation is monotone with respect to extra fields: it only
    examines the keys the schema declares, so a document that passes still
    passes once it is extended with keys the schema does not declare. *)
Theorem validate_dict_schema_extra_fields (doc doc' : gmap string pyval)
  (sch : schema) (parent_key : string) (st : interp) :
  doc ⊆ doc' ->
  (forall key, doc !! key = None -> is_Some (doc' !! key) -> key ∉ sch.*1) ->
  succeeds (_validate_dict_schema (PDict doc) sch parent_key) st ->
  succeeds (_validate_dict_schema (PDict doc') sch parent_key) st.
Proof.
  intros Hsub Hnew Hpass. unfold succeeds in *.
  rewrite (validate_dict_schema_agree doc doc'); [exact Hpass |].
  intros key Hkey.
  destruct (doc !! key) as [v |] eqn:Hv.
  - eapply lookup_weaken; eauto.
  - destruct (doc' !! key) as [v' |] eqn:Hv'; [| reflexivity].
    exfalso. apply (Hnew key Hv); [rewrite Hv'; eauto | exact Hkey].
Qed.

Lemma validate_dict_schema_extra_fields_witness :
  let doc : gmap string pyval := {[ "name" := PStr "pkg" ]} in
  let doc' : gmap string pyval := <[ "homepage" := PInt 7 ]> doc in
  let sch : schema := [("name", Rule TStr true)] in
  let st := Interp [] [] [] [] in
  doc ⊆ doc' /\
  succeeds (_validate_dict_schema (PDict doc) sch "") st /\
  succeeds (_validate_dict_schema (PDict doc') sch "") st.
Proof.
  intros doc doc' sch st.
  assert (Hsub : doc ⊆ doc') by (apply insert_subseteq; reflexivity).
  assert (Hpass : succeeds (_validate_dict_schema (PDict doc) sch "") st)
    by (exists tt; reflexivity).
  split; [exact Hsub | split; [exact Hpass |]].
  apply (validate_dict_schema_extra_fields doc doc' sch "" st Hsub);
    [| exact Hpass].
  intros key Hnone _ Hin.
  apply list_elem_of_singleton in Hin. subst key. discriminate Hnone.
Defined.

(** ** The tag check *)

(** C10. An empty expected tag is treated as no tag at all: the check
    returns at once for every document, prints nothing and raises nothing,
    although the empty string is not a semantic version. *)
Theorem check_tag_empty_is_absent (fs : filesystem) (data : pyval)
  (root_path : path) (name : option string) (st : interp) :
  _check_tag (Some "") st = (Ok tt, st)
  /\ _check_tag (Some "") st = _check_tag None st
  /\ Semver.parse (PyStr.lstrip_chars "v" "") = false
  /\ validate_content fs data root_path (Some "") name st
     = validate_content fs data root_path None name st.
Proof. repeat split. Qed.

(** ** Asset paths *)

Lemma kept_segment_dotdot : kept_segment ".." = true.
Proof. reflexivity. Qed.

(** The segments of a parsed path that equal [..] are those of the string
    split at slashes: parsing drops only empty segments and single dots,
    and the anchor is made of slashes. *)
Lemma dotdot_in_parts (s : string) :
  ".." ∈ parts (Path s) <-> ".." ∈ PyStr.split "/" s.
Proof.
  assert (Hseg : ".." ∈ segments (Path s) <-> ".." ∈ PyStr.split "/" s).
  { unfold Path; simpl. rewrite list_elem_of_filter. intuition. }
  rewrite <- Hseg. unfold parts.
  destruct (bool_decide (anchor (Path s) = "")) eqn:Ha; [reflexivity |].
  rewrite elem_of_cons. split; [| tauto].
  intros [Heq | Hin]; [| exact Hin].
  exfalso. unfold Path, path_anchor in Heq. simpl in Heq.
  repeat match type of Heq with
         | context [match ?x with _ => _ end] => destruct x
         end; discriminate.
Qed.

(** C6. The asset check fails with PathTraversal exactly when the path is
    a string one of whose parsed segments equals [..]; a segment that only
    contains two dots does not count, and the filesystem plays no part: the
    test comes before the existence test. *)
Theorem check_asset_path_traversal (fs : filesystem) (path_str : pyval)
  (root_path : path) (st : interp) :
  (fails_with (_check_asset_path fs path_str root_path) st PathTraversal
   <-> exists s, path_str = PStr s /\ ".." ∈ parts (Path s))
  /\ ~ fails_with (_check_asset_path fs (PStr "..foo") root_path) st
         PathTraversal
  /\ fails_with (_check_asset_path fs (PStr "assets/../secret") root_path) st
       PathTraversal.
Proof.
  split; [| split].
  - unfold fails_with, _check_asset_path. split.
    + destruct path_str as [| | | s | |]; try discriminate.
      destruct s as [| c s']; [discriminate |].
      cbn [PyStr.is_empty].
      destruct (bool_decide (".." ∈ parts (Path (String c s')))) eqn:Hdd.
      * intros _. exists (String c s'). split; [reflexivity |].
        now apply bool_decide_eq_true in Hdd.
      * destruct (negb _); discriminate.
    + intros [s [-> Hin]].
      destruct s as [| c s'].
      * exfalso. vm_compute in Hin. inversion Hin.
      * cbn [PyStr.is_empty].
        now rewrite (bool_decide_eq_true_2 _ Hin).
  - unfold fails_with, _check_asset_path.
    cbn [PyStr.is_empty].
    replace (bool_decide (".." ∈ parts (Path "..foo"))) with false
      by (symmetry; apply bool_decide_eq_false; vm_compute;
          intros H;
          repeat (inversion H as [| ? ? ? H']; clear H; rename H' into H);
          inversion H).
    destruct (negb _); discriminate.
  - unfold fails_with, _check_asset_path. cbn [PyStr.is_empty].
    rewrite bool_decide_eq_true_2; [reflexivity |].
    vm_compute. apply list_elem_of_further, list_elem_of_here.
Qed.

(** ** Regular expressions: the matcher computes the language *)

Lemma str_app_assoc (a b c : string) : (a +:+ b) +:+ c = a +:+ (b +:+ c).
Proof.
  induction a as [| x a IH]; [reflexivity |].
  change (String x ((a +:+ b) +:+ c) = String x (a +:+ (b +:+ c))).
  now rewrite IH.
Qed.

Lemma str_app_nil_r (a : string) : a +:+ "" = a.
Proof.
  induction a as [| x a IH]; [reflexivity |].
  change (String x (a +:+ "") = String x a). now rewrite IH.
Qed.

Lemma str_app_eq_nil (a b : string) : a +:+ b = "" -> a = "" /\ b = "".
Proof. destruct a; simpl; [auto | discriminate]. Qed.

Lemma str_app_eq_cons (a b w : string) (c : ascii) :
  a +:+ b = String c w ->
  (a = "" /\ b = String c w) \/ (exists a', a = String c a' /\ w = a' +:+ b).
Proof.
  destruct a as [| x a']; simpl; intros H.
  - left. auto.
  - right. injection H as -> <-. eauto.
Qed.

Module ReFacts.
Import Re.

Lemma nullable_denotes (r : regex) (start : bool) (rest : string) :
  nullable r start rest = true <-> denotes r start "" rest.
Proof.
  induction r as [| | | | ranges | r1 IH1 r2 IH2 | r1 IH1 r2 IH2 | r IH];
    simpl.
  - split; [discriminate | intros H; inversion H].
  - split; [intros _; constructor | reflexivity].
  - split; [intros ->; constructor | intros H; now inversion H].
  - split; [intros H; now constructor | intros H; now inversion H].
  - split; [discriminate | intros H; inversion H].
  - rewrite andb_true_iff, IH1, IH2. split.
    + intros [H1 H2].
      apply (DCat r1 r2 start "" "" rest); simpl; [exact H1 |].
      now rewrite andb_true_r.
    + intros H. inversion H as [| | | | ? ? ? w1 w2 ? H1 H2 Hr Hs Hw | | | |].
      subst. apply str_app_eq_nil in Hw as [-> ->].
      simpl in *. rewrite andb_true_r in H2. auto.
  - rewrite orb_true_iff, IH1, IH2. split.
    + intros [H | H]; [now apply DAltL | now apply DAltR].
    + intros H. inversion H; subst; auto.
  - split; [intros _; constructor | reflexivity].
Qed.

Lemma deriv_denotes (r : regex) (c : ascii) (start : bool)
  (w rest : string) :
  denotes (deriv c r start (String c (w +:+ rest))) false w rest
  <-> denotes r start (String c w) rest.
Proof.
  revert w rest start.
  induction r as [| | | | ranges | r1 IH1 r2 IH2 | r1 IH1 r2 IH2 | r IH];
    intros w rest start; simpl.
  - split; intros H; inversion H.
  - split; intros H; inversion H.
  - split; intros H; inversion H.
  - split; intros H; inversion H.
  - destruct (in_class ranges c) eqn:Hc; split; intros H.
    + inversion H; subst. now constructor.
    + inversion H; subst. constructor.
    + inversion H.
    + inversion H; subst. congruence.
  - split; intros H.
    + inversion H as [| | | | | ? ? ? ? ? Hl | ? ? ? ? ? Hr | |]; subst.
      * inversion Hl as [| | | | ? ? ? w1 w2 ? H1 H2 | | | |]; subst.
        rewrite str_app_assoc in H1.
        apply IH1 in H1.
        apply (DCat r1 r2 start (String c w1) w2 rest); [exact H1 |].
        simpl. now rewrite andb_false_r.
      * destruct (nullable r1 start (String c (w +:+ rest))) eqn:Hn;
          [| inversion Hr].
        apply nullable_denotes in Hn. apply IH2 in Hr.
        apply (DCat r1 r2 start "" (String c w) rest); simpl;
          [exact Hn | now rewrite andb_true_r].
    + inversion H as [| | | | ? ? ? w1 w2 ? H1 H2 Hr Hs Hw | | | |]; subst.
      apply str_app_eq_cons in Hw as [[-> ->] | [w1' [-> ->]]].
      * simpl in H1, H2. rewrite andb_true_r in H2.
        apply DAltR. apply nullable_denotes in H1.
        change (String c w +:+ rest) with (String c (w +:+ rest)) in H1.
        rewrite H1.
        now apply IH2.
      * apply DAltL. simpl in H2. rewrite andb_false_r in H2.
        rewrite str_app_assoc.
        apply (DCat _ r2 false w1' w2 rest); [| exact H2].
        apply IH1. exact H1.
  - split; intros H.
    + inversion H; subst; [apply DAltL; now apply IH1
                          | apply DAltR; now apply IH2].
    + inversion H; subst; [apply DAltL; now apply IH1
                          | apply DAltR; now apply IH2].
  - split; intros H.
    + inversion H as [| | | | ? ? ? w1 w2 ? H1 H2 | | | |]; subst.
      rewrite str_app_assoc in H1. apply IH in H1.
      simpl in H2.
      exact (DStarStep r start c w1 w2 rest H1 H2).
    + inversion H as [| | | | | | | | ? ? ? w1 w2 ? H1 H2]; subst.
      rewrite str_app_assoc.
      apply (DCat _ (Star r) false w1 w2 rest); [| exact H2].
      apply IH. exact H1.
Qed.

Lemma match_from_denotes (s : string) (r : regex) (start : bool) :
  match_from r start s = true
  <-> exists w rest, s = w +:+ rest /\ denotes r start w rest.
Proof.
  revert r start. induction s as [| c s' IH]; intros r start; simpl.
  - rewrite orb_false_r, nullable_denotes. split.
    + intros H. exists "", "". auto.
    + intros (w & rest & Hs & H). symmetry in Hs.
      apply str_app_eq_nil in Hs as [-> ->]. exact H.
  - rewrite orb_true_iff, nullable_denotes, IH. split.
    + intros [H | (w & rest & -> & H)].
      * exists "", (String c s'). auto.
      * exists (String c w), rest. split; [reflexivity |].
        now apply deriv_denotes.
    + intros (w & rest & Hs & H). symmetry in Hs.
      apply str_app_eq_cons in Hs as [[-> ->] | [w' [-> ->]]].
      * left. exact H.
      * right. exists w', rest. split; [reflexivity |].
        now apply deriv_denotes.
Qed.

(** [re.match] succeeds exactly when the pattern matches a prefix. *)
Lemma re_match_denotes (pattern : regex) (s : string) :
  re_match pattern s = true
  <-> exists w rest, s = w +:+ rest /\ denotes pattern true w rest.
Proof. apply match_from_denotes. Qed.

End ReFacts.

(** ** The e-mail pattern *)

Module EmailFacts.
Import Re ReFacts.

Lemma denotes_cat_inv (r1 r2 : regex) (start : bool) (w rest : string) :
  denotes (Cat r1 r2) start w rest ->
  exists w1 w2,
    w = w1 +:+ w2
    /\ denotes r1 start w1 (w2 +:+ rest)
    /\ denotes r2 (start && PyStr.is_empty w1) w2 rest.
Proof. intros H. inversion H; subst. eauto. Qed.

Lemma denotes_cls_inv (ranges : list (ascii * ascii)) (start : bool)
  (w rest : string) :
  denotes (Cls ranges) start w rest ->
  exists c, w = String c "" /\ in_class ranges c = true.
Proof. intros H. inversion H; subst. eauto. Qed.

Lemma denotes_star_cls (ranges : list (ascii * ascii)) (start : bool)
  (w rest : string) :
  denotes (Star (Cls ranges)) start w rest
  <-> PyStr.all_chars (in_class ranges) w = true.
Proof.
  split.
  - intros H. remember (Star (Cls ranges)) as r eqn:Hr.
    induction H as [| | | | | | | | r0 start c w1 w2 rest H1 _ H2 IH2];
      try discriminate; [reflexivity |].
    injection Hr as ->.
    apply denotes_cls_inv in H1 as (c' & Hc & Hin).
    injection Hc as <- ->.
    unfold PyStr.all_chars in *. simpl.
    rewrite Hin. simpl. now apply IH2.
  - revert start. induction w as [| c w IH]; intros start Hall.
    + constructor.
    + unfold PyStr.all_chars in Hall. simpl in Hall.
      apply andb_true_iff in Hall as [Hc Hw].
      apply (DStarStep (Cls ranges) start c "" w rest).
      * now constructor.
      * now apply IH.
Qed.

Lemma denotes_plus_cls (ranges : list (ascii * ascii)) (start : bool)
  (w rest : string) :
  denotes (Plus (Cls ranges)) start w rest
  <-> one_or_more (in_class ranges) w = true.
Proof.
  unfold Plus, one_or_more. split.
  - intros H. apply denotes_cat_inv in H as (w1 & w2 & -> & H1 & H2).
    apply denotes_cls_inv in H1 as (c & -> & Hc).
    apply denotes_star_cls in H2.
    unfold PyStr.all_chars in *. simpl. now rewrite Hc.
  - destruct w as [| c w]; [discriminate |].
    unfold PyStr.all_chars. simpl. intros H.
    apply andb_true_iff in H as [Hc Hw].
    apply (DCat (Cls ranges) (Star (Cls ranges)) start (String c "") w rest).
    + now constructor.
    + now apply denotes_star_cls.
Qed.

Lemma in_class_chr (c x : ascii) : in_class [(c, c)] x = true <-> x = c.
Proof.
  unfold in_class, in_range. simpl. rewrite orb_false_r, andb_true_iff.
  rewrite !Nat.leb_le. split.
  - intros [H1 H2].
    rewrite <- (ascii_nat_embedding x), <- (ascii_nat_embedding c).
    f_equal. lia.
  - intros ->. lia.
Qed.

Lemma denotes_chr (c : ascii) (start : bool) (w rest : string) :
  denotes (Chr c) start w rest <-> w = String c "".
Proof.
  unfold Chr. split.
  - intros H. apply denotes_cls_inv in H as (x & -> & Hx).
    apply in_class_chr in Hx. now subst.
  - intros ->. constructor. now apply in_class_chr.
Qed.

(** The classes of the pattern are those of the specification. *)
Lemma all_chars_ext (p q : ascii -> bool) (s : string) :
  (forall c, p c = q c) -> PyStr.all_chars p s = PyStr.all_chars q s.
Proof.
  intros Hpq. unfold PyStr.all_chars.
  induction s as [| c s IH]; simpl; [reflexivity |].
  now rewrite Hpq, IH.
Qed.

Lemma email_local_class (c : ascii) : in_class email_local c = local_char c.
Proof. destruct c as [[] [] [] [] [] [] [] []]; reflexivity. Qed.

Lemma email_domain_class (c : ascii) :
  in_class email_domain c = domain_char c.
Proof. destruct c as [[] [] [] [] [] [] [] []]; reflexivity. Qed.

Lemma email_tld_class (c : ascii) : in_class email_tld c = tld_char c.
Proof. destruct c as [[] [] [] [] [] [] [] []]; reflexivity. Qed.

End EmailFacts.

Module EmailShape.
Import Re ReFacts EmailFacts.

Lemma one_or_more_ext (p q : ascii -> bool) (s : string) :
  (forall c, p c = q c) -> one_or_more p s = one_or_more q s.
Proof.
  intros Hpq. unfold one_or_more. now rewrite (all_chars_ext p q s Hpq).
Qed.

Lemma email_regex_denotes (w rest : string) :
  denotes email_regex true w rest
  <-> email_shape w /\ at_eol rest = true.
Proof.
  unfold email_regex, email_shape. split.
  - intros H.
    apply denotes_cat_inv in H as (w0 & x1 & -> & H0 & H).
    inversion H0; subst. clear H0.
    apply denotes_cat_inv in H as (l & x2 & -> & Hl & H).
    apply denotes_cat_inv in H as (a & x3 & -> & Ha & H).
    apply denotes_cat_inv in H as (d & x4 & -> & Hd & H).
    apply denotes_cat_inv in H as (o & x5 & -> & Ho & H).
    apply denotes_cat_inv in H as (t & x6 & -> & Ht & H).
    inversion H as [| | ? ? Heol | | | | | |]; subst. clear H.
    apply denotes_plus_cls in Hl, Hd, Ht.
    apply denotes_chr in Ha, Ho. subst a o.
    rewrite (one_or_more_ext _ _ _ email_local_class) in Hl.
    rewrite (one_or_more_ext _ _ _ email_domain_class) in Hd.
    rewrite (one_or_more_ext _ _ _ email_tld_class) in Ht.
    split; [| exact Heol].
    exists l, d, t. rewrite str_app_nil_r. simpl. auto.
  - intros [(l & d & t & -> & Hl & Hd & Ht) Heol].
    rewrite <- (one_or_more_ext _ _ _ email_local_class) in Hl.
    rewrite <- (one_or_more_ext _ _ _ email_domain_class) in Hd.
    rewrite <- (one_or_more_ext _ _ _ email_tld_class) in Ht.
    apply (DCat Bol _ true "" _ rest); [constructor |].
    apply (DCat _ _ _ l _ rest); [now apply denotes_plus_cls |].
    apply (DCat _ _ _ "@" _ rest); [now apply denotes_chr |].
    apply (DCat _ _ _ d _ rest); [now apply denotes_plus_cls |].
    apply (DCat _ _ _ "." _ rest); [now apply denotes_chr |].
    rewrite <- (str_app_nil_r t).
    apply (DCat _ _ _ t "" rest); [now apply denotes_plus_cls |].
    now constructor.
Qed.

(** What [re.match] accepts: an address of the shape, possibly followed
    by one newline. *)
Lemma re_match_email (s : string) :
  re_match email_regex s = true
  <-> exists e rest, s = e +:+ rest /\ email_shape e /\ at_eol rest = true.
Proof.
  rewrite re_match_denotes. split.
  - intros (w & rest & -> & H). apply email_regex_denotes in H as [He Hr].
    eauto.
  - intros (e & rest & -> & He & Hr). exists e, rest.
    split; [reflexivity |]. now apply email_regex_denotes.
Qed.

Lemma ends_with_newline_app (e : string) (c : ascii) :
  ends_with_newline (e +:+ String c "") = Ascii.eqb c newline.
Proof.
  induction e as [| x e IH]; [reflexivity |].
  change (String x e +:+ String c "") with (String x (e +:+ String c "")).
  cbn [ends_with_newline]. rewrite IH.
  destruct e; reflexivity.
Qed.

Lemma re_match_email_shape (s : string) :
  ends_with_newline s = false ->
  (re_match email_regex s = true <-> email_shape s).
Proof.
  intros Hnl. rewrite re_match_email. split.
  - intros (e & rest & -> & He & Hr).
    destruct rest as [| c [| c' rest']]; simpl in Hr; try discriminate.
    + now rewrite str_app_nil_r.
    + rewrite ends_with_newline_app in Hnl. congruence.
  - intros He. exists s, "". rewrite str_app_nil_r. auto.
Qed.

Lemma email_shape_match (s : string) :
  email_shape s -> re_match email_regex s = true.
Proof.
  intros He. apply re_match_email. exists s, "".
  rewrite str_app_nil_r. auto.
Qed.

End EmailShape.

(** ** Non-empty strings and the author check *)

Lemma is_empty_true (s : string) : PyStr.is_empty s = true <-> s = "".
Proof. destruct s; simpl; split; congruence. Qed.

Lemma is_empty_false (s : string) : PyStr.is_empty s = false <-> s <> "".
Proof. destruct s; simpl; split; congruence. Qed.

Lemma check_non_empty_str_ok (s key_name : string) (st : interp) :
  PyStr.strip s <> "" ->
  _check_non_empty_str (PStr s) key_name st = (Ok tt, st).
Proof.
  intros Hs. unfold _check_non_empty_str, bind, py_strip, ret. simpl.
  destruct s as [| c s']; [exfalso; now apply Hs |]. simpl.
  apply is_empty_false in Hs. now rewrite Hs.
Qed.

Lemma check_non_empty_str_blank (s key_name : string) (st : interp) :
  PyStr.strip s = "" ->
  _check_non_empty_str (PStr s) key_name st = (Raise (EmptyField key_name), st).
Proof.
  intros Hs. unfold _check_non_empty_str, bind, py_strip, ret, raise. simpl.
  destruct s as [| c s']; [reflexivity |]. simpl.
  apply is_empty_true in Hs. now rewrite Hs.
Qed.

(** The author check on a mapping with a usable name and a non-blank
    e-mail string comes down to the match of the pattern. *)
Lemma check_author_content_match (d : gmap string pyval)
  (name email : string) (st : interp) :
  d !! "name" = Some (PStr name) ->
  d !! "email" = Some (PStr email) ->
  PyStr.strip name <> "" ->
  PyStr.contains "your-github-username" name = false ->
  PyStr.strip email <> "" ->
  _check_author_content (PDict d) st
  = if Re.re_match email_regex email then (Ok tt, st)
    else (Raise InvalidEmail, st).
Proof.
  intros Hname Hemail Hn Hph He.
  unfold _check_author_content, py_get.
  rewrite Hname, Hemail. simpl.
  unfold bind at 1. unfold ret at 1.
  unfold bind at 1. unfold ret at 1.
  rewrite (bind_ok _ _ _ _ _ (check_non_empty_str_ok name _ st Hn)).
  rewrite (bind_ok _ _ _ _ _ (check_non_empty_str_ok email _ st He)).
  unfold bind, py_in, py_re_match, ret, raise. rewrite Hph.
  now destruct (Re.re_match email_regex email).
Qed.

(** C7, amended. For an author whose name is usable (not blank, without
    the placeholder) and whose e-mail is a string that is not blank and
    does not end in a newline, the author check fails with InvalidEmail
    exactly when the e-mail does not have the shape, and passes exactly
    when it has. *)
Theorem check_author_content_email (d : gmap string pyval)
  (name email : string) (st : interp) :
  d !! "name" = Some (PStr name) ->
  d !! "email" = Some (PStr email) ->
  PyStr.strip name <> "" ->
  PyStr.contains "your-github-username" name = false ->
  PyStr.strip email <> "" ->
  ends_with_newline email = false ->
  (fails_with (_check_author_content (PDict d)) st InvalidEmail
   <-> ~ email_shape email)
  /\ (succeeds (_check_author_content (PDict d)) st <-> email_shape email).
Proof.
  intros Hname Hemail Hn Hph He Hnl.
  unfold fails_with, succeeds.
  rewrite (check_author_content_match d name email st Hname Hemail Hn Hph He).
  rewrite <- (EmailShape.re_match_email_shape email Hnl).
  destruct (Re.re_match email_regex email); simpl.
  - split; split;
      [discriminate | intros H; exfalso; now apply H | reflexivity | eauto].
  - split; split;
      [intros _ H; discriminate | reflexivity
      | intros [a Ha]; discriminate | discriminate].
Qed.

Lemma check_author_content_email_witness :
  succeeds (_check_author_content (PDict (Sample.author "A" "a@b.com")))
    Sample.st0
  /\ fails_with
       (_check_author_content (PDict (Sample.author "A" "not-an-email")))
       Sample.st0 InvalidEmail.
Proof.
  split.
  - apply (check_author_content_email (Sample.author "A" "a@b.com")
             "A" "a@b.com" Sample.st0);
      [reflexivity | reflexivity | discriminate | reflexivity
      | discriminate | reflexivity |].
    exists "a", "b", "com". repeat split; vm_compute; reflexivity.
  - apply (check_author_content_email (Sample.author "A" "not-an-email")
             "A" "not-an-email" Sample.st0);
      [reflexivity | reflexivity | discriminate | reflexivity
      | discriminate | reflexivity |].
    intros He. apply EmailShape.email_shape_match in He.
    vm_compute in He. discriminate He.
Defined.

(** C7, as stated, fails on a blank e-mail: a single space is a non-empty
    string that does not have the shape, and the author check raises
    EmptyField for [author.email], not InvalidEmail. *)
Lemma check_author_content_blank_email_counterexample :
  " " <> ""
  /\ ~ email_shape " "
  /\ fails_with (_check_author_content (PDict (Sample.author "A" " ")))
       Sample.st0 (EmptyField "author.email")
  /\ ~ fails_with (_check_author_content (PDict (Sample.author "A" " ")))
         Sample.st0 InvalidEmail.
Proof.
  split; [discriminate |]. split; [| split].
  - intros He. apply EmailShape.email_shape_match in He.
    vm_compute in He. discriminate He.
  - vm_compute. reflexivity.
  - unfold fails_with. vm_compute. discriminate.
Qed.

(** The slip next to it: [$] also holds before a final newline, so an
    address followed by a newline passes the check. *)
Lemma check_author_content_trailing_newline :
  succeeds
    (_check_author_content
       (PDict (Sample.author "A" ("a@b.com" +:+ String Re.newline ""))))
    Sample.st0
  /\ ~ email_shape ("a@b.com" +:+ String Re.newline "").
Proof.
  split; [exists tt; vm_compute; reflexivity |].
  intros (l & d & t & Heq & _ & _ & Ht).
  assert (Hlast : ends_with_newline (l +:+ "@" +:+ d +:+ "." +:+ t) = true)
    by (rewrite <- Heq; reflexivity).
  clear Heq. revert Hlast.
  destruct t as [| c t]; [discriminate |].
  assert (Hend : forall p, ends_with_newline (p +:+ String c t)
                           = ends_with_newline (String c t)).
  { induction p as [| x p IH]; [reflexivity |].
    change (String x p +:+ String c t) with (String x (p +:+ String c t)).
    cbn [ends_with_newline]. rewrite IH.
    destruct p; reflexivity. }
  replace (l +:+ "@" +:+ d +:+ "." +:+ String c t)
    with ((l +:+ "@" +:+ d +:+ ".") +:+ String c t)
    by (now rewrite !str_app_assoc).
  rewrite Hend. clear Hend.
  unfold one_or_more, PyStr.all_chars in Ht. simpl in Ht.
  revert c Ht. induction t as [| c' t IH]; intros c Ht.
  - simpl. intros Hnl. apply Ascii.eqb_eq in Hnl. subst c. discriminate.
  - change (ends_with_newline (String c (String c' t)))
      with (ends_with_newline (String c' t)).
    apply IH. simpl in Ht. apply andb_true_iff in Ht as [_ Ht]. exact Ht.
Qed.

(** ** The version pattern and the tag check *)

Module SemverFacts.
Import Re ReFacts EmailFacts.

Lemma in_class_between (lo hi c : ascii) :
  in_class [(lo, hi)] c = char_between lo hi c.
Proof. unfold in_class, in_range, char_between. simpl. apply orb_false_r. Qed.

Lemma digit_cases (c : ascii) :
  char_between "0" "9" c = true ->
  (c = "0"%char \/ char_between "1" "9" c = true)
  /\ PyStr.mem_char c "v" = false.
Proof.
  destruct c as [[] [] [] [] [] [] [] []]; try discriminate;
    intros _; split; auto.
Qed.

Lemma nonzero_digit (c : ascii) :
  char_between "1" "9" c = true -> char_between "0" "9" c = true.
Proof. destruct c as [[] [] [] [] [] [] [] []]; auto. Qed.

Lemma denotes_numeric (w rest : string) (start : bool) :
  numeral w = true -> denotes Semver.numeric start w rest.
Proof.
  unfold Semver.numeric, Semver.digit.
  destruct w as [| c [| c' w']]; simpl; [discriminate | |].
  - intros Hc. apply digit_cases in Hc as [[-> | Hc] _].
    + apply DAltL. now apply denotes_chr.
    + apply DAltR.
      apply (DCat _ _ start (String c "") "" rest); [| constructor].
      constructor. now rewrite in_class_between.
  - intros H. apply andb_true_iff in H as [Hc Hw].
    apply DAltR.
    apply (DCat _ _ start (String c "") (String c' w') rest).
    + constructor. now rewrite in_class_between.
    + apply denotes_star_cls.
      rewrite (all_chars_ext _ (char_between "0" "9"));
        [exact Hw | intros x; apply in_class_between].
Qed.

Lemma numeral_first_digit (w : string) :
  numeral w = true ->
  exists c w', w = String c w' /\ char_between "0" "9" c = true.
Proof.
  destruct w as [| c [| c' w']]; simpl; [discriminate | eauto |].
  intros H. apply andb_true_iff in H as [Hc _].
  eauto using nonzero_digit.
Qed.

Lemma numeral_digits (w : string) :
  numeral w = true ->
  w <> "" /\ PyStr.all_chars (in_class [("0", "9")]%char) w = true.
Proof.
  intros Hw. split; [now destruct w |].
  rewrite (all_chars_ext _ (char_between "0" "9"))
    by (intros x; apply in_class_between).
  destruct w as [| c [| c' w']]; simpl in Hw; [discriminate | |].
  - unfold PyStr.all_chars. simpl. now rewrite Hw.
  - apply andb_true_iff in Hw as [Hc Hw].
    unfold PyStr.all_chars in *.
    change (forallb (char_between "0" "9")
              (list_ascii_of_string (String c (String c' w'))))
      with (char_between "0" "9" c
            && forallb (char_between "0" "9")
                 (list_ascii_of_string (String c' w'))).
    now rewrite (nonzero_digit c Hc), Hw.
Qed.

Lemma take_digits_all (w : string) :
  PyStr.all_chars (in_class [("0", "9")]%char) w = true ->
  Semver.take_digits w = (w, "").
Proof.
  unfold PyStr.all_chars. induction w as [| c w IH]; simpl; [reflexivity |].
  intros H. apply andb_true_iff in H as [Hc Hw].
  now rewrite Hc, (IH Hw).
Qed.

Lemma take_digits_dot (w rest : string) :
  PyStr.all_chars (in_class [("0", "9")]%char) w = true ->
  Semver.take_digits (w +:+ String "." rest) = (w, String "." rest).
Proof.
  unfold PyStr.all_chars. induction w as [| c w IH]; simpl; [reflexivity |].
  intros H. apply andb_true_iff in H as [Hc Hw].
  now rewrite Hc, (IH Hw).
Qed.

Lemma ends_with_newline_suffix (p : string) (c : ascii) (t : string) :
  ends_with_newline (p +:+ String c t) = ends_with_newline (String c t).
Proof.
  induction p as [| x p IH]; [reflexivity |].
  change (String x p +:+ String c t) with (String x (p +:+ String c t)).
  cbn [ends_with_newline]. rewrite IH. destruct p; reflexivity.
Qed.

Lemma ends_with_newline_digits (w : string) :
  PyStr.all_chars (in_class [("0", "9")]%char) w = true ->
  ends_with_newline w = false.
Proof.
  unfold PyStr.all_chars. induction w as [| c w IH]; [reflexivity |].
  cbn [list_ascii_of_string forallb]. intros H.
  apply andb_true_iff in H as [Hc Hw]. specialize (IH Hw).
  destruct w as [| c' w']; [| exact IH].
  simpl. apply Ascii.eqb_neq. intros ->. discriminate Hc.
Qed.

(** The pattern matches MAJOR.MINOR.PATCH. *)
Lemma match_core (major minor patch : string) :
  numeral major = true -> numeral minor = true -> numeral patch = true ->
  re_match Semver.pattern (major +:+ "." +:+ minor +:+ "." +:+ patch) = true.
Proof.
  intros Ha Hb Hc. apply re_match_denotes.
  exists (major +:+ "." +:+ minor +:+ "." +:+ patch), "".
  split; [now rewrite str_app_nil_r |].
  unfold Semver.pattern.
  apply (DCat Bol _ true "" _ ""); [constructor |].
  apply (DCat _ _ _ major _ ""); [now apply denotes_numeric |].
  apply (DCat _ _ _ "." _ ""); [now apply denotes_chr |].
  apply (DCat _ _ _ minor _ ""); [now apply denotes_numeric |].
  apply (DCat _ _ _ "." _ ""); [now apply denotes_chr |].
  rewrite <- (str_app_nil_r patch).
  apply (DCat _ _ _ patch "" ""); [now apply denotes_numeric |].
  apply (DCat _ _ _ "" "" ""); [apply DAltR; constructor |].
  apply (DCat _ _ _ "" "" ""); [apply DAltR; constructor |].
  now constructor.
Qed.

(** MAJOR.MINOR.PATCH parses, when the fields are within the limit of the
    conversion to integers. *)
Lemma parse_core (major minor patch : string) :
  numeral major = true -> numeral minor = true -> numeral patch = true ->
  Semver.int_converts major = true -> Semver.int_converts minor = true ->
  Semver.int_converts patch = true ->
  Semver.parse (major +:+ "." +:+ minor +:+ "." +:+ patch) = true.
Proof.
  intros Ha Hb Hc La Lb Lc. unfold Semver.parse.
  rewrite (match_core major minor patch Ha Hb Hc).
  destruct (numeral_digits major Ha) as [_ Da].
  destruct (numeral_digits minor Hb) as [_ Db].
  destruct (numeral_digits patch Hc) as [Nc Dc].
  assert (Hnl : ends_with_newline
                  (major +:+ "." +:+ minor +:+ "." +:+ patch) = false).
  { destruct patch as [| c t]; [now contradiction Nc |].
    replace (major +:+ "." +:+ minor +:+ "." +:+ String c t)
      with ((major +:+ "." +:+ minor +:+ ".") +:+ String c t)
      by (now rewrite !str_app_assoc).
    rewrite ends_with_newline_suffix. now apply ends_with_newline_digits. }
  rewrite Hnl. cbn [negb andb].
  unfold Semver.numeric_fields.
  change (major +:+ "." +:+ minor +:+ "." +:+ patch)
    with (major +:+ String "." (minor +:+ String "." patch)).
  rewrite (take_digits_dot major _ Da). cbn [Semver.drop_first].
  rewrite (take_digits_dot minor _ Db). cbn [Semver.drop_first].
  rewrite (take_digits_all patch Dc).
  cbn [forallb]. now rewrite La, Lb, Lc.
Qed.

(** [lstrip("v")] removes the one [v] in front of a digit. *)
Lemma lstrip_v_numeral (major rest : string) :
  numeral major = true ->
  PyStr.lstrip_chars "v" ("v" +:+ major +:+ rest) = major +:+ rest.
Proof.
  intros Ha. apply numeral_first_digit in Ha as (c & w' & -> & Hc).
  apply digit_cases in Hc as [_ Hv].
  simpl. unfold PyStr.mem_char in Hv |- *. simpl in Hv |- *.
  now rewrite Hv.
Qed.

(** With at most one leading [v], [lstrip("v")] removes that [v]. *)
Lemma lstrip_v_single (tag : string) :
  String.prefix "vv" tag = false ->
  PyStr.lstrip_chars "v" tag = strip_leading_v tag.
Proof.
  destruct tag as [| c tag']; [reflexivity |].
  unfold strip_leading_v.
  destruct (Ascii.eqb c "v") eqn:Hc.
  - apply Ascii.eqb_eq in Hc. subst c.
    destruct tag' as [| c' tag'']; [reflexivity |].
    destruct (Ascii.eqb c' "v") eqn:Hc'.
    + apply Ascii.eqb_eq in Hc'. subst c'. simpl.
      destruct tag''; discriminate.
    + intros _. simpl. unfold PyStr.mem_char. simpl. now rewrite Hc'.
  - intros _. simpl. unfold PyStr.mem_char. simpl. rewrite Hc. simpl.
    destruct c as [[] [] [] [] [] [] [] []]; try reflexivity.
    discriminate Hc.
Qed.

End SemverFacts.

Lemma check_tag_result (tag : string) (st : interp) :
  tag <> "" ->
  fst (_check_tag (Some tag) st)
  = if Semver.parse (PyStr.lstrip_chars "v" tag) then Ok tt
    else Raise InvalidVersion.
Proof.
  intros Ht. unfold _check_tag. apply is_empty_false in Ht. rewrite Ht.
  now destruct (Semver.parse _).
Qed.

(** Every tag vMAJOR.MINOR.PATCH passes the tag check. *)
Lemma check_tag_numerals (major minor patch : string) (st : interp) :
  numeral major = true -> numeral minor = true -> numeral patch = true ->
  Semver.int_converts major = true -> Semver.int_converts minor = true ->
  Semver.int_converts patch = true ->
  succeeds
    (_check_tag (Some ("v" +:+ major +:+ "." +:+ minor +:+ "." +:+ patch)))
    st.
Proof.
  intros Ha Hb Hc La Lb Lc. apply succeeds_unit.
  rewrite check_tag_result; [| discriminate].
  rewrite (SemverFacts.lstrip_v_numeral major _ Ha).
  now rewrite (SemverFacts.parse_core major minor patch Ha Hb Hc La Lb Lc).
Qed.

Lemma check_tag_malformed (st : interp) :
  fails_with (_check_tag (Some "v1.2")) st InvalidVersion
  /\ fails_with (_check_tag (Some "abc")) st InvalidVersion
  /\ fails_with (_check_tag (Some "1.2.3.4")) st InvalidVersion.
Proof.
  unfold fails_with. rewrite !check_tag_result by discriminate.
  repeat split; vm_compute; reflexivity.
Qed.

(** C5, amended. For a tag that is not empty and has at most one leading
    [v], the tag check removes that [v] and passes exactly when the parser
    accepts the rest as a semantic version, failing with InvalidVersion
    otherwise; every vMAJOR.MINOR.PATCH made of decimal numerals without
    leading zeros and of at most 4300 digits each passes, and [v1.2], [abc]
    and [1.2.3.4] fail with InvalidVersion. *)
Theorem check_tag_semver (tag : string) (st : interp) :
  tag <> "" ->
  String.prefix "vv" tag = false ->
  (succeeds (_check_tag (Some tag)) st
   <-> Semver.parse (strip_leading_v tag) = true)
  /\ (Semver.parse (strip_leading_v tag) = false
      <-> fails_with (_check_tag (Some tag)) st InvalidVersion)
  /\ (forall major minor patch,
        numeral major = true -> numeral minor = true ->
        numeral patch = true ->
        Semver.int_converts major = true ->
        Semver.int_converts minor = true ->
        Semver.int_converts patch = true ->
        succeeds
          (_check_tag
             (Some ("v" +:+ major +:+ "." +:+ minor +:+ "." +:+ patch))) st)
  /\ fails_with (_check_tag (Some "v1.2")) st InvalidVersion
  /\ fails_with (_check_tag (Some "abc")) st InvalidVersion
  /\ fails_with (_check_tag (Some "1.2.3.4")) st InvalidVersion.
Proof.
  intros Ht Hvv.
  rewrite succeeds_unit. unfold fails_with at 1.
  rewrite (check_tag_result tag st Ht), (SemverFacts.lstrip_v_single tag Hvv).
  split; [| split; [| split]].
  - destruct (Semver.parse _); split; congruence.
  - destruct (Semver.parse _); split; congruence.
  - intros major minor patch. apply check_tag_numerals.
  - apply check_tag_malformed.
Qed.

Lemma check_tag_semver_witness :
  succeeds (_check_tag (Some "v1.2.3-rc.1+build.5")) Sample.st0
  /\ fails_with (_check_tag (Some "v1.02.3")) Sample.st0 InvalidVersion
  /\ succeeds (_check_tag (Some "v10.0.7")) Sample.st0.
Proof.
  pose proof (check_tag_semver "v1.2.3-rc.1+build.5" Sample.st0
                ltac:(discriminate) eq_refl) as (Hpass & _).
  pose proof (check_tag_semver "v1.02.3" Sample.st0
                ltac:(discriminate) eq_refl) as (_ & Hfail & Hnum & _).
  split; [| split].
  - apply (proj2 Hpass). vm_compute. reflexivity.
  - apply (proj1 Hfail). vm_compute. reflexivity.
  - apply (Hnum "10" "0" "7"); reflexivity.
Defined.

(** C5, as stated, fails on two tags.  The empty tag is given and passes,
    although nothing parses; and from [vv1.2.3] every leading [v] is
    removed, so it passes although [v1.2.3], what is left once one [v] is
    removed, does not parse. *)
Lemma check_tag_counterexample :
  (succeeds (_check_tag (Some "")) Sample.st0
   /\ Semver.parse (strip_leading_v "") = false)
  /\ (succeeds (_check_tag (Some "vv1.2.3")) Sample.st0
      /\ Semver.parse (strip_leading_v "vv1.2.3") = false).
Proof.
  repeat split; try (exists tt); vm_compute; reflexivity.
Qed.

(** ** The entry-point check *)

Lemma split_once_contains (sep : ascii) (s a b : string) :
  PyStr.split_once sep s = Some (a, b) ->
  PyStr.contains (String sep "") s = true.
Proof.
  revert a b. induction s as [| c s IH]; intros a b; [discriminate |].
  cbn [PyStr.split_once PyStr.contains String.prefix].
  destruct (Ascii.eqb c sep) eqn:Hc.
  - intros _. apply Ascii.eqb_eq in Hc. subst c.
    destruct (ascii_dec sep sep) as [_ | Hne]; [| now contradiction Hne].
    now destruct s.
  - destruct (PyStr.split_once sep s) as [[a' b'] |]; [| discriminate].
    intros _. rewrite (IH a' b' eq_refl). apply orb_true_r.
Qed.

Lemma node_defines_spec (attr_name : string) (node : stmt) :
  node_defines attr_name node = true <-> defines attr_name node.
Proof.
  split.
  - destruct node as [name body | | name body | targets | | | | | | |];
      simpl; try discriminate.
    + intros H. apply bool_decide_eq_true in H. subst. constructor.
    + intros H. apply bool_decide_eq_true in H. subst. constructor.
    + intros H. constructor. apply existsb_exists in H as (t & Hin & Ht).
      destruct t; try discriminate.
      apply bool_decide_eq_true in Ht. subst.
      now apply list_elem_of_In.
    - intros [body | body | targets Hin]; simpl.
    + now apply bool_decide_eq_true.
    + now apply bool_decide_eq_true.
    + apply existsb_exists. exists (Name attr_name).
      split; [now apply list_elem_of_In | now apply bool_decide_eq_true].
Qed.

(** X11. The scan returns at the first top-level statement that defines
    the attribute, whatever follows it, and prints its confirmation. *)
Lemma scan_body_first_match (entry_point attr_name : string)
  (before after : list stmt) (node : stmt) (st : interp) :
  Forall (fun n => ~ defines attr_name n) before ->
  defines attr_name node ->
  scan_body entry_point attr_name (before ++ node :: after) st
  = print ("   ... Code entry point '" +:+ entry_point +:+ "' OK") st.
Proof.
  intros Hbefore Hnode. induction Hbefore as [| n before Hn _ IH]; simpl.
  - apply node_defines_spec in Hnode. now rewrite Hnode.
  - destruct (node_defines attr_name n) eqn:Hd; [| exact IH].
    apply node_defines_spec in Hd. now contradiction Hn.
Qed.

Lemma scan_body_result (entry_point attr_name : string) (body : list stmt)
  (st : interp) :
  (Exists (defines attr_name) body
   /\ scan_body entry_point attr_name body st
      = print ("   ... Code entry point '" +:+ entry_point +:+ "' OK") st)
  \/ (Forall (fun n => ~ defines attr_name n) body
      /\ scan_body entry_point attr_name body st
         = (Raise AttributeNotFound, st)).
Proof.
  induction body as [| node rest IH]; simpl.
  - right. split; [constructor | reflexivity].
  - destruct (node_defines attr_name node) eqn:Hd.
    + left. split; [| reflexivity].
      apply Exists_cons_hd. now apply node_defines_spec.
    + assert (Hn : ~ defines attr_name node).
      { intros H. apply node_defines_spec in H. congruence. }
      destruct IH as [[Hex Heq] | [Hall Heq]].
      * left. split; [now apply Exists_cons_tl | exact Heq].
      * right. split; [now constructor | exact Heq].
Qed.

Lemma grows_refl (st : interp) : grows st st.
Proof. split; [now exists [] | reflexivity]. Qed.

Lemma grows_trans (a b c : interp) : grows a b -> grows b c -> grows a c.
Proof.
  intros [[l1 H1] H1'] [[l2 H2] H2']. split; [| congruence].
  exists (l2 ++ l1). now rewrite H2, H1, app_assoc.
Qed.

Lemma grows_refl_upto (st st' : interp) :
  sys_path st' = sys_path st -> stdout st' = stdout st -> grows st st'.
Proof. intros H1 H2. split; [now exists [] | exact H2]. Qed.

(** What the code of a package does when it is run. *)
Lemma run_stmt_imports (node : stmt) :
  respects grows import_failure (run_stmt node).
Proof.
  destruct node; simpl;
    try (apply respects_state; [| discriminate];
         intros st; apply grows_refl_upto; reflexivity).
  - apply (respects_raise _ _ grows_refl). right. right. eauto.
  - apply respects_state; [| discriminate].
    intros st. split; [now exists [entry] | reflexivity].
Qed.

Lemma exec_module_imports (fs : filesystem) (fullname : string)
  (module_path : path) :
  respects grows import_failure (exec_module fs fullname module_path).
Proof.
  unfold exec_module. apply (respects_bind _ _ grows_trans).
  - apply respects_state; [| discriminate].
    intros st. split; [now exists [] | reflexivity].
  - intros _. destruct (fs !! module_path) as [[| content] |];
      try (apply (respects_ret _ _ grows_refl)).
    destruct (as_python content) as [body |].
    + apply (respects_for_each _ _ grows_refl grows_trans).
      apply run_stmt_imports.
    + apply (respects_raise _ _ grows_refl). right. now left.
Qed.

(** Module resolution puts entries in front of the search path at most,
    leaves the standard output alone, and fails only as an import does. *)
Lemma find_in_imports (fs : filesystem) (names : list string)
  (search : list path) (parent : string) :
  respects grows import_failure (find_in fs search parent names).
Proof.
  revert search parent.
  induction names as [| name rest IH]; intros search parent.
  - apply (respects_ret _ _ grows_refl).
  - destruct rest as [| name' rest'].
    + apply (respects_ret _ _ grows_refl).
    + change (find_in fs search parent (name :: name' :: rest'))
        with (match path_find fs name search [] with
              | None => raise ModuleNotFoundError
              | Some spec =>
                  (match origin spec with
                   | Some module_path =>
                       exec_module fs
                         (if PyStr.is_empty parent then name
                          else parent +:+ "." +:+ name) module_path
                   | None => ret tt
                   end) >>
                  match submodule_search_locations spec with
                  | Some locations =>
                      find_in fs locations
                        (if PyStr.is_empty parent then name
                         else parent +:+ "." +:+ name) (name' :: rest')
                  | None => raise ModuleNotFoundError
                  end
              end).
      destruct (path_find fs name search []) as [[org locs] |];
        [| apply (respects_raise _ _ grows_refl); now left].
      cbn [origin submodule_search_locations].
      apply (respects_bind _ _ grows_trans).
      * destruct org; [apply exec_module_imports
                      | apply (respects_ret _ _ grows_refl)].
      * intros _. destruct locs;
          [apply IH | apply (respects_raise _ _ grows_refl); now left].
Qed.

Lemma find_spec_imports (fs : filesystem) (name : string) :
  respects grows import_failure (find_spec fs name).
Proof. intros st. apply find_in_imports. Qed.

Lemma find_in_single (fs : filesystem) (name : string) (search : list path)
  (parent : string) (st : interp) :
  find_in fs search parent [name] st = (Ok (path_find fs name search []), st).
Proof. reflexivity. Qed.

(** The check on a well-formed reference: the root is put in front of the
    search path, the module is resolved, and the first entry of the search
    path is removed whatever the outcome. *)
Lemma check_code_entry_point_unfold (fs : filesystem)
  (ref module_name attr_name : string) (root_path : path) (st : interp) :
  PyStr.split_once ":" ref = Some (module_name, attr_name) ->
  _check_code_entry_point fs (PStr ref) root_path st
  = let '(spec, st1) :=
      find_spec fs module_name (with_sys_path (root_path :: sys_path st) st) in
    let '(r, st2) :=
      match spec with
      | Ok (Some (Spec (Some module_path) _)) =>
          bind (read_and_parse fs module_path)
               (scan_body ref attr_name) st1
      | Ok _ => (Raise ModuleNotFound, st1)
      | Raise e => (Raise e, st1)
      end in
    (r, with_sys_path (tail (sys_path st2)) st2).
Proof.
  intros Hsplit. unfold _check_code_entry_point.
  unfold bind at 1. unfold py_in, ret.
  rewrite (split_once_contains _ _ _ _ Hsplit). cbn [negb].
  rewrite Hsplit. unfold bind at 1. unfold sys_path_insert0 at 1.
  unfold finally. unfold bind at 1.
  change (Interp (root_path :: sys_path st) (executed st) (stdout st)
            (stderr st))
    with (with_sys_path (root_path :: sys_path st) st).
  destruct (find_spec_imports fs module_name
              (with_sys_path (root_path :: sys_path st) st))
    as [[[added Hsp] _] _].
  cbn [sys_path with_sys_path] in Hsp.
  destruct (find_spec fs module_name
              (with_sys_path (root_path :: sys_path st) st))
    as [spec st1].
  cbn [snd] in Hsp.
  assert (Hpop : forall (r : result unit) st2,
            sys_path st2 = sys_path st1 ->
            match sys_path_pop0 st2 with
            | (Ok _, st3) => (r, st3)
            | (Raise e, st3) => (Raise e, st3)
            end = (r, with_sys_path (tail (sys_path st2)) st2)).
  { intros r st2 Hst2. unfold sys_path_pop0. rewrite Hst2, Hsp.
    destruct added; reflexivity. }
  destruct spec as [[[[module_path |] locs] |] | e];
    try (apply Hpop; reflexivity).
  unfold bind, read_and_parse.
  destruct (fs !! module_path) as [[| content] |];
    try (apply Hpop; reflexivity).
  destruct (as_python content) as [body |];
    try (apply Hpop; reflexivity).
  unfold ret.
  destruct (scan_body_result ref attr_name body st1)
    as [[_ Heq] | [_ Heq]]; rewrite Heq.
  - apply Hpop. reflexivity.
  - apply Hpop. reflexivity.
Qed.




(** ** Module resolution and the search path *)

Lemma split_no_separator (sep : ascii) (s : string) :
  PyStr.contains (String sep "") s = false -> PyStr.split sep s = [s].
Proof.
  induction s as [| c s IH]; [reflexivity |].
  cbn [PyStr.contains String.prefix PyStr.split].
  destruct (ascii_dec sep c) as [<- | Hne].
  - destruct s; discriminate.
  - cbn [orb]. intros Hs. rewrite (IH Hs).
    destruct (Ascii.eqb c sep) eqn:Hc; [| reflexivity].
    apply Ascii.eqb_eq in Hc. now subst.
Qed.




(** ** Asset paths and the package root *)

Lemma walk_no_dotdot (fs : filesystem) (segs cur location : path) :
  ".." ∉ segs -> walk fs cur segs = Some location -> location = cur ++ segs.
Proof.
  revert cur. induction segs as [| seg rest IH]; intros cur Hdd; simpl.
  - intros [= <-]. now rewrite app_nil_r.
  - apply not_elem_of_cons in Hdd as [Hne Hrest].
    destruct (is_dir fs cur); [| discriminate].
    rewrite bool_decide_eq_false_2 by congruence.
    destruct (bool_decide (is_Some (fs !! (cur ++ [seg])))); [| discriminate].
    intros Hwalk. apply (IH _ Hrest) in Hwalk.
    now rewrite <- app_assoc in Hwalk.
Qed.

(** X9. What the asset check does guarantee: a relative path that passes
    exists, and lies below the package root. *)
Lemma check_asset_path_relative_under (fs : filesystem) (s : string)
  (root_path : path) (st : interp) :
  ".." ∉ root_path ->
  anchor (Path s) = "" ->
  succeeds (_check_asset_path fs (PStr s) root_path) st ->
  path_exists fs (joinpath root_path s) = true
  /\ resolves_under fs root_path (joinpath root_path s).
Proof.
  intros Hroot Hrel [[] Hok]. unfold _check_asset_path in Hok.
  destruct (PyStr.is_empty s); [discriminate |].
  destruct (bool_decide (".." ∈ parts (Path s))) eqn:Hdd; [discriminate |].
  destruct (path_exists fs (joinpath root_path s)) eqn:Hex; [| discriminate].
  split; [reflexivity |].
  apply bool_decide_eq_false in Hdd.
  unfold parts in Hdd. unfold joinpath in *.
  rewrite Hrel in *. rewrite bool_decide_eq_true_2 in * by reflexivity.
  unfold path_exists in Hex. apply bool_decide_eq_true in Hex as [loc Hloc].
  exists loc. split; [exact Hloc |].
  apply walk_no_dotdot in Hloc.
  - subst loc. simpl. now apply prefix_app_r.
  - rewrite elem_of_app. tauto.
Qed.

(** C2, at the failing input. The absolute asset path [/etc/passwd]
    replaces the package root [/pkg] when the two are joined: the check
    passes, the path exists, and it is not below the package root. *)
Theorem check_asset_path_absolute_escapes :
  _check_asset_path (Sample.tree PNone) (PStr "/etc/passwd") Sample.root
    Sample.st0
  = (Ok tt, Sample.st0)
  /\ joinpath Sample.root "/etc/passwd" = ["etc"; "passwd"]
  /\ path_exists (Sample.tree PNone) (joinpath Sample.root "/etc/passwd")
     = true
  /\ ~ resolves_under (Sample.tree PNone) Sample.root
         (joinpath Sample.root "/etc/passwd").
Proof.
  split; [reflexivity |]. split; [reflexivity |]. split; [reflexivity |].
  intros (loc & Hloc & Hpre).
  vm_compute in Hloc. injection Hloc as <-.
  destruct Hpre as [k Hk]. discriminate Hk.
Qed.

(** ** What the entry-point check leaves behind *)

(** A module name without dots is looked up in the entries of the search
    path, and nothing is imported. *)
Lemma find_spec_undotted (fs : filesystem) (module_name : string)
  (st : interp) :
  PyStr.contains "." module_name = false ->
  find_spec fs module_name st
  = (Ok (path_find fs module_name (sys_path st) []), st).
Proof.
  intros Hdot. unfold find_spec.
  now rewrite (split_no_separator "." module_name Hdot).
Qed.

(** When the module name has no dot, the check is the lookup followed by
    the scan, in the state it started from but for what the scan prints. *)
Lemma check_code_entry_point_undotted (fs : filesystem)
  (ref module_name attr_name : string) (root_path : path) (st : interp) :
  PyStr.split_once ":" ref = Some (module_name, attr_name) ->
  PyStr.contains "." module_name = false ->
  exists (r : result unit) (out : list string),
    _check_code_entry_point fs (PStr ref) root_path st
    = (r, Interp (sys_path st) (executed st) out (stderr st))
    /\ forall e, r = Raise e -> resolver_failure e.
Proof.
  intros Hsplit Hdot.
  rewrite (check_code_entry_point_unfold fs ref module_name attr_name
             root_path st Hsplit).
  rewrite (find_spec_undotted fs module_name _ Hdot).
  assert (Hfail : forall e : failure,
            e = ModuleNotFound \/ e = SyntaxError
            \/ e = Runtime FileNotFoundError "read_text"
            \/ e = AttributeNotFound ->
            resolver_failure e).
  { intros e [-> | [-> | [-> | ->]]]; split; discriminate. }
  destruct (path_find fs module_name _ []) as [[[p |] locs] |].
  - unfold bind, read_and_parse.
    destruct (fs !! p) as [[| content] |].
    + eexists. eexists. split; [reflexivity |].
      intros e [= <-]. apply Hfail. auto.
    + destruct (as_python content) as [body |].
      * unfold ret.
        destruct (scan_body_result ref attr_name body
                    (with_sys_path (root_path :: sys_path st) st))
          as [[_ Heq] | [_ Heq]]; rewrite Heq.
        -- eexists. eexists. split; [reflexivity | discriminate].
        -- eexists. eexists. split; [reflexivity |].
           intros e [= <-]. apply Hfail. auto.
      * eexists. eexists. split; [reflexivity |].
        intros e [= <-]. apply Hfail. auto.
    + eexists. eexists. split; [reflexivity |].
      intros e [= <-]. apply Hfail. auto.
  - eexists. eexists. split; [reflexivity |].
    intros e [= <-]. apply Hfail. auto.
  - eexists. eexists. split; [reflexivity |].
    intros e [= <-]. apply Hfail. auto.
Qed.

(** X13. A module name without dots is resolved without running any
    code. *)
Lemma check_code_entry_point_undotted_runs_nothing (fs : filesystem)
  (ref module_name attr_name : string) (root_path : path) (st : interp) :
  PyStr.split_once ":" ref = Some (module_name, attr_name) ->
  PyStr.contains "." module_name = false ->
  executed (snd (_check_code_entry_point fs (PStr ref) root_path st))
  = executed st.
Proof.
  intros Hsplit Hdot.
  rewrite (check_code_entry_point_unfold fs ref module_name attr_name
             root_path st Hsplit).
  unfold find_spec. rewrite (split_no_separator "." module_name Hdot).
  rewrite find_in_single.
  destruct (path_find fs module_name _ []) as [[[p |] locs] |];
    try reflexivity.
  unfold bind, read_and_parse.
  destruct (fs !! p) as [[| content] |]; try reflexivity.
  destruct (as_python content) as [body |]; try reflexivity.
  unfold ret.
  destruct (scan_body_result ref attr_name body
              (with_sys_path (root_path :: sys_path st) st))
    as [[_ Heq] | [_ Heq]]; rewrite Heq; reflexivity.
Qed.

(** C3, at the failing input. For the dotted reference [sub.mod:g] the
    resolution imports the parent package [sub], whose [__init__.py] is
    run; the check passes and the search path is back to what it was. *)
Theorem check_code_entry_point_imports_parent :
  _check_code_entry_point (Sample.tree PNone) (PStr "sub.mod:g") Sample.root
    Sample.st0
  = (Ok tt,
     Interp (sys_path Sample.st0) ["sub"]
       ["   ... Code entry point 'sub.mod:g' OK"] [])
  /\ executed Sample.st0 = []
  /\ is_file (Sample.tree PNone) ["pkg"; "sub"; "__init__.py"] = true.
Proof. repeat split. Qed.

(** ** The pipeline and the exit status *)

(** The exit status is 0 when the pipeline passes, 1 when a handler of
    [main] takes the failure, and the status of the [SystemExit] when none
    does. *)
Lemma main_exit_code (fs : filesystem) (root_path : path)
  (tag name : option string) (st : interp) :
  exit_code (fst (main fs root_path tag name st))
  = match fst (pipeline fs root_path tag name
                 (snd (print ("Validating package at: /"
                              +:+ PyStr.join "/" root_path) st))) with
    | Ok _ => 0%Z
    | Raise e =>
        match exc_of e with
        | SystemExit => exit_status e
        | _ => 1%Z
        end
    end.
Proof.
  unfold main. cbn [print snd].
  destruct (pipeline fs root_path tag name _) as [[[] | e] st1];
    [reflexivity |].
  destruct e; try reflexivity. now destruct cls.
Qed.

(** C8, at the failing input. The metadata of the package at [/pkg] are in
    order and declare the entry point [sub.mod:g]; the [__init__.py] of the
    package [sub] calls [sys.exit(status)].  The lookup of the module
    imports [sub], the [SystemExit] passes the three handlers of [main], and
    the run ends with that status and without a message: with status 3 the
    exit status is neither 0 nor 1, and with status 0 it is 0 although
    content validation has not passed.  With an [__init__.py] that does
    nothing the same run passes. *)
Theorem main_exit_code_of_package_code :
  let metadata :=
    Sample.document "a@b.com" {[ "code" := PStr "sub.mod:g" ]} in
  (forall status,
     main (Sample.exiting_tree status metadata) Sample.root None None
       Sample.st0
     = (Exits status,
        Interp (sys_path Sample.st0) ["sub"]
          ["-> Running content validation...";
           "   ... Schema OK";
           "-> Running schema validation...";
           "Validating package at: /pkg"] []))
  /\ exit_code
       (fst (main (Sample.exiting_tree 3 metadata) Sample.root None None
               Sample.st0)) = 3%Z
  /\ exit_code
       (fst (main (Sample.exiting_tree 0 metadata) Sample.root None None
               Sample.st0)) = 0%Z
  /\ (forall st,
        ~ succeeds
            (validate_content (Sample.exiting_tree 0 metadata) metadata
               Sample.root None None) st)
  /\ fst (main (Sample.tree metadata) Sample.root None None Sample.st0)
     = Returns 0%Z.
Proof.
  intros metadata.
  split; [| split; [| split; [| split]]].
  - intros status. vm_compute. reflexivity.
  - vm_compute. reflexivity.
  - vm_compute. reflexivity.
  - intros st [[] H]. vm_compute in H. discriminate H.
  - vm_compute. reflexivity.
Qed.

(** * Further properties of the checks *)

(** ** Blank strings *)

Lemma lstrip_blank (s : string) :
  PyStr.lstrip s = "" <-> PyStr.all_chars PyStr.isspace s = true.
Proof.
  unfold PyStr.all_chars.
  induction s as [| c s IH]; simpl; [split; intros; reflexivity |].
  destruct (PyStr.isspace c); simpl; [exact IH | split; discriminate].
Qed.

Lemma rstrip_blank (s : string) :
  PyStr.rstrip s = "" <-> PyStr.all_chars PyStr.isspace s = true.
Proof.
  unfold PyStr.all_chars.
  induction s as [| c s IH]; simpl; [split; intros; reflexivity |].
  destruct (PyStr.rstrip s) as [| c' r].
  - rewrite (proj1 IH eq_refl), andb_true_r.
    destruct (PyStr.isspace c); split; congruence.
  - split; [discriminate |].
    intros H. apply andb_true_iff in H as [_ H].
    apply IH in H. discriminate H.
Qed.

Lemma lstrip_head (s r : string) (c : ascii) :
  PyStr.lstrip s = String c r -> PyStr.isspace c = false.
Proof.
  induction s as [| x s IH]; simpl; [discriminate |].
  destruct (PyStr.isspace x) eqn:Hx; [exact IH |].
  intros [= -> _]. exact Hx.
Qed.

(** [s.strip()] is empty exactly when every character of [s] is
    whitespace. *)
Lemma strip_blank (s : string) :
  PyStr.strip s = "" <-> PyStr.all_chars PyStr.isspace s = true.
Proof.
  unfold PyStr.strip. rewrite rstrip_blank, <- (lstrip_blank s).
  destruct (PyStr.lstrip s) as [| c r] eqn:Hl.
  - split; intros; reflexivity.
  - apply lstrip_head in Hl. unfold PyStr.all_chars. simpl. rewrite Hl.
    split; discriminate.
Qed.


(** ** Schema validation of a mapping *)

Lemma validate_dict_schema_cons (doc : gmap string pyval) (key : string)
  (rules : rule) (rest : schema) (parent_key : string) (st : interp) :
  _validate_dict_schema (PDict doc) ((key, rules) :: rest) parent_key st
  = match doc !! key with
    | None =>
        if required rules
        then (Raise (MissingKey (full_key parent_key key)), st)
        else _validate_dict_schema (PDict doc) rest parent_key st
    | Some v =>
        if isinstance v (type rules)
        then _validate_dict_schema (PDict doc) rest parent_key st
        else (Raise (WrongType (full_key parent_key key)
                       (type_name (type rules)) (type_name (type_of v))),
              st)
    end.
Proof.
  cbn [_validate_dict_schema]. unfold bind, py_in, py_getitem, ret, raise.
  unfold full_key.
  destruct (required rules), (doc !! key) as [v |]; simpl;
    try destruct (isinstance v (type rules)); reflexivity.
Qed.

(** On a mapping, schema validation passes exactly when every entry of the
    schema is met, and leaves the state as it was. *)
Lemma validate_dict_schema_mapping (doc : gmap string pyval) (sch : schema)
  (parent_key : string) (st : interp) :
  (succeeds (_validate_dict_schema (PDict doc) sch parent_key) st
   <-> Forall (fun entry => entry_met doc entry = true) sch)
  /\ snd (_validate_dict_schema (PDict doc) sch parent_key st) = st.
Proof.
  rewrite succeeds_unit.
  induction sch as [| [key rules] rest [IHok IHst]].
  - split; [| reflexivity]. split; [constructor | reflexivity].
  - rewrite validate_dict_schema_cons.
    rewrite Forall_cons. unfold entry_met at 1. cbn [fst snd].
    destruct (doc !! key) as [v |].
    + destruct (isinstance v (type rules)).
      * split; [| exact IHst]. rewrite IHok. tauto.
      * split; [| reflexivity]. simpl. split; [discriminate |].
        intros [H _]. discriminate H.
    + destruct (required rules).
      * split; [| reflexivity]. simpl. split; [discriminate |].
        intros [H _]. discriminate H.
      * split; [| exact IHst]. rewrite IHok. simpl. tauto.
Qed.

(** X3. The failure of schema validation is that of the first entry, in
    the order of the schema, that the mapping does not meet: MissingKey
    with the dotted name of the key when a required key is absent,
    WrongType with the dotted name, the expected class and the class of
    the value when the value is of another class. *)
Theorem validate_dict_schema_first_failure (doc : gmap string pyval)
  (before after : schema) (key : string) (rules : rule)
  (parent_key : string) (st : interp) :
  Forall (fun entry => entry_met doc entry = true) before ->
  entry_met doc (key, rules) = false ->
  fails_with
    (_validate_dict_schema (PDict doc) (before ++ (key, rules) :: after)
       parent_key) st
    match doc !! key with
    | None => MissingKey (full_key parent_key key)
    | Some v => WrongType (full_key parent_key key) (type_name (type rules))
                  (type_name (type_of v))
    end.
Proof.
  intros Hbefore Hentry. unfold fails_with.
  induction Hbefore as [| [k r] before Hk _ IH].
  - cbn [app]. rewrite validate_dict_schema_cons.
    unfold entry_met in Hentry. cbn [fst snd] in Hentry.
    destruct (doc !! key) as [v |].
    + now rewrite Hentry.
    + apply negb_false_iff in Hentry. now rewrite Hentry.
  - cbn [app]. rewrite validate_dict_schema_cons.
    unfold entry_met in Hk. cbn [fst snd] in Hk.
    destruct (doc !! k) as [v |].
    + now rewrite Hk.
    + apply negb_true_iff in Hk. now rewrite Hk.
Qed.

Lemma validate_dict_schema_first_failure_witness :
  fails_with
    (_validate_dict_schema
       (PDict {[ "name" := PStr "A"; "email" := PInt 3 ]}) AUTHOR_SCHEMA
       "author")
    Sample.st0 (WrongType "author.email" "str" "int")
  /\ fails_with
       (_validate_dict_schema (PDict {[ "name" := PStr "pkg" ]}) SCHEMA "")
       Sample.st0 (MissingKey "description").
Proof.
  split.
  - refine (validate_dict_schema_first_failure
             {[ "name" := PStr "A"; "email" := PInt 3 ]}
             [("name", Rule TStr true)] [] "email" (Rule TStr true)
             "author" Sample.st0 _ _).
    + repeat constructor.
    + reflexivity.
  - refine (validate_dict_schema_first_failure
             {[ "name" := PStr "pkg" ]}
             [("name", Rule TStr true)]
             [("author", Rule TDict true); ("provides", Rule TDict true)]
             "description" (Rule TStr true) "" Sample.st0 _ _).
    + repeat constructor.
    + reflexivity.
Defined.

Lemma isinstance_str (v : pyval) :
  isinstance v TStr = true <-> exists s, v = PStr s.
Proof.
  destruct v; simpl; split; try discriminate; eauto;
    intros [? Hs]; discriminate.
Qed.

Lemma isinstance_dict (v : pyval) :
  isinstance v TDict = true <-> exists d, v = PDict d.
Proof.
  destruct v; simpl; split; try discriminate; eauto;
    intros [? Hs]; discriminate.
Qed.

Lemma entry_met_required (doc : gmap string pyval) (key : string)
  (t : pytype) :
  entry_met doc (key, Rule t true) = true
  <-> exists v, doc !! key = Some v /\ isinstance v t = true.
Proof.
  unfold entry_met. simpl. destruct (doc !! key) as [v |].
  - split; [eauto | now intros (v' & [= <-] & H)].
  - split; [discriminate | now intros (v' & H & _)].
Qed.

Lemma validate_dict_schema_run (doc : gmap string pyval) (sch : schema)
  (parent_key : string) (st : interp) :
  _validate_dict_schema (PDict doc) sch parent_key st
  = (fst (_validate_dict_schema (PDict doc) sch parent_key st), st).
Proof.
  destruct (validate_dict_schema_mapping doc sch parent_key st) as [_ Hst].
  destruct (_validate_dict_schema (PDict doc) sch parent_key st) as [r st'].
  simpl in *. now subst.
Qed.

(** The mappings that pass [validate_schema]. *)
Lemma validate_schema_mapping (doc : gmap string pyval) (st : interp) :
  succeeds (validate_schema (PDict doc)) st
  <-> exists name description author provides author_name author_email,
        doc !! "name" = Some (PStr name)
        /\ doc !! "description" = Some (PStr description)
        /\ doc !! "author" = Some (PDict author)
        /\ doc !! "provides" = Some (PDict provides)
        /\ author !! "name" = Some (PStr author_name)
        /\ author !! "email" = Some (PStr author_email).
Proof.
  rewrite succeeds_unit. unfold validate_schema.
  unfold bind at 1. unfold print at 1.
  set (st1 := Interp (sys_path st) (executed st)
                ("-> Running schema validation..." :: stdout st) (stderr st)).
  unfold bind at 1. rewrite validate_dict_schema_run.
  destruct (validate_dict_schema_mapping doc SCHEMA "" st1) as [Htop _].
  rewrite succeeds_unit in Htop.
  destruct (fst (_validate_dict_schema (PDict doc) SCHEMA "" st1))
    as [[] | e] eqn:Hr.
  - assert (Hall := proj1 Htop eq_refl). unfold SCHEMA in Hall.
    apply Forall_cons in Hall as [Hn Hall].
    apply Forall_cons in Hall as [Hd Hall].
    apply Forall_cons in Hall as [Ha Hall].
    apply Forall_cons in Hall as [Hp _].
    apply entry_met_required in Hn as (vn & Hn & Hni).
    apply entry_met_required in Hd as (vd & Hd & Hdi).
    apply entry_met_required in Ha as (va & Ha & Hai).
    apply entry_met_required in Hp as (vp & Hp & Hpi).
    apply isinstance_str in Hni as [name ->].
    apply isinstance_str in Hdi as [description ->].
    apply isinstance_dict in Hai as [author ->].
    apply isinstance_dict in Hpi as [provides ->].
    unfold bind at 1. unfold py_get, ret. rewrite Ha. cbn [default id].
    cbv beta iota. unfold bind at 1. rewrite validate_dict_schema_run.
    destruct (validate_dict_schema_mapping author AUTHOR_SCHEMA "author" st1)
      as [Hauth _].
    rewrite succeeds_unit in Hauth.
    destruct (fst (_validate_dict_schema (PDict author) AUTHOR_SCHEMA
                     "author" st1)) as [[] | e] eqn:Hr2.
    + assert (Hall := proj1 Hauth eq_refl). unfold AUTHOR_SCHEMA in Hall.
      apply Forall_cons in Hall as [Han Hall].
      apply Forall_cons in Hall as [Hae _].
      apply entry_met_required in Han as (van & Han & Hani).
      apply entry_met_required in Hae as (vae & Hae & Haei).
      apply isinstance_str in Hani as [author_name ->].
      apply isinstance_str in Haei as [author_email ->].
      split; [| reflexivity]. intros _.
      exists name, description, author, provides, author_name, author_email.
      auto 10.
    + split; [discriminate |].
      intros (n & d & a & p & an & ae & H1 & H2 & H3 & H4 & H5 & H6).
      assert (a = author) by congruence. subst a.
      assert (Hok : Raise e = Ok tt); [| discriminate Hok].
      apply Hauth. unfold AUTHOR_SCHEMA.
      repeat constructor; unfold entry_met; cbn [fst snd];
        [rewrite H5 | rewrite H6]; reflexivity.
  - split; [discriminate |].
    intros (n & d & a & p & an & ae & H1 & H2 & H3 & H4 & H5 & H6).
    assert (Hok : Raise e = Ok tt); [| discriminate Hok].
    apply Htop. unfold SCHEMA.
    repeat constructor; unfold entry_met; cbn [fst snd];
      [rewrite H1 | rewrite H2 | rewrite H3 | rewrite H4]; reflexivity.
Qed.

(** ** The name check *)

(** X5. The name check passes when no expected name is given, or an empty
    one, or when the metadata name is the string expected; it fails with
    NameMismatch when a non-empty name is expected and the metadata name
    is another string or not a string; it raises nothing else. *)
Theorem check_package_name_spec (metadata_name : pyval)
  (expected_name : option string) (st : interp) :
  (succeeds (_check_package_name metadata_name expected_name) st
   <-> expected_name = None \/ expected_name = Some ""
       \/ exists e, expected_name = Some e /\ metadata_name = PStr e)
  /\ (fails_with (_check_package_name metadata_name expected_name) st
        NameMismatch
      <-> exists e, expected_name = Some e /\ e <> ""
                    /\ metadata_name <> PStr e)
  /\ (succeeds (_check_package_name metadata_name expected_name) st
      \/ fails_with (_check_package_name metadata_name expected_name) st
           NameMismatch).
Proof.
  rewrite succeeds_unit. unfold fails_with, _check_package_name.
  destruct expected_name as [e |].
  - destruct e as [| c e'].
    + simpl. repeat split; auto; try discriminate.
      intros (e & [= <-] & Hne & _). now contradiction Hne.
    + cbn [PyStr.is_empty]. unfold py_ne.
      destruct metadata_name as [| b | z | s | l | d]; cbn [negb];
        try (simpl; repeat split; auto; try discriminate;
             [intros [H | [H | (e & [= <-] & H)]]; discriminate
             | intros _; exists (String c e'); repeat split; discriminate]).
      destruct (bool_decide (s = String c e')) eqn:Hs; cbn [negb].
      * apply bool_decide_eq_true in Hs. subst s.
        simpl. repeat split; auto; try discriminate.
        -- intros _. right. right. eauto.
        -- intros (e & [= <-] & _ & Hne). now contradiction Hne.
      * apply bool_decide_eq_false in Hs.
        simpl. repeat split; auto; try discriminate.
        -- intros [H | [H | (e & [= <-] & [= H])]]; try discriminate.
           now contradiction Hs.
        -- intros _. exists (String c e'). repeat split; try discriminate.
           congruence.
  - simpl. repeat split; auto; try discriminate.
    intros (e & H & _). discriminate.
Qed.

(** ** Leading [v]s of a tag *)

(** X6. The tag check removes every leading [v], not one: putting any
    number of [v]s in front of a non-empty tag does not change whether it
    passes. *)
Theorem check_tag_leading_v (n : nat) (tag : string) (st : interp) :
  tag <> "" ->
  fst (_check_tag (Some (Nat.iter n (String "v") tag)) st)
  = fst (_check_tag (Some tag) st).
Proof.
  intros Htag. induction n as [| n IH]; [reflexivity |].
  cbn [Nat.iter nat_rect]. rewrite <- IH.
  rewrite !check_tag_result.
  - reflexivity.
  - clear IH. destruct n; [exact Htag | discriminate].
  - discriminate.
Qed.

Lemma check_tag_leading_v_witness :
  fst (_check_tag (Some "vvv1.2.3") Sample.st0)
  = fst (_check_tag (Some "1.2.3") Sample.st0).
Proof.
  exact (check_tag_leading_v 3 "1.2.3" Sample.st0 ltac:(discriminate)).
Defined.

(** ** The order of the author checks *)

(** X7. For an author mapping whose [name] and [email] are strings or
    absent (an absent one counts as the empty string), the author check
    reports the first of: a blank name (EmptyField [author.name]), a blank
    e-mail (EmptyField [author.email]), the placeholder in the name
    (PlaceholderDetected), an e-mail the pattern does not match
    (InvalidEmail); so the placeholder is reported whatever the e-mail
    looks like. *)
Theorem check_author_content_order (d : gmap string pyval)
  (name email : string) (st : interp) :
  default (PStr "") (d !! "name") = PStr name ->
  default (PStr "") (d !! "email") = PStr email ->
  _check_author_content (PDict d) st
  = (if PyStr.all_chars PyStr.isspace name
     then Raise (EmptyField "author.name")
     else if PyStr.all_chars PyStr.isspace email
          then Raise (EmptyField "author.email")
          else if PyStr.contains "your-github-username" name
               then Raise PlaceholderDetected
               else if Re.re_match email_regex email then Ok tt
                    else Raise InvalidEmail,
     st).
Proof.
  intros Hname Hemail. unfold _check_author_content, py_get.
  unfold bind at 1. unfold ret at 1. unfold bind at 1. unfold ret at 1.
  rewrite Hname, Hemail.
  destruct (PyStr.all_chars PyStr.isspace name) eqn:Hn.
  { apply strip_blank in Hn.
    now rewrite (bind_raise _ _ _ _ _
                   (check_non_empty_str_blank name "author.name" st Hn)). }
  assert (Hn' : PyStr.strip name <> "") by (rewrite strip_blank; congruence).
  rewrite (bind_ok _ _ _ _ _ (check_non_empty_str_ok name _ st Hn')).
  destruct (PyStr.all_chars PyStr.isspace email) eqn:He.
  { apply strip_blank in He.
    now rewrite (bind_raise _ _ _ _ _
                   (check_non_empty_str_blank email "author.email" st He)). }
  assert (He' : PyStr.strip email <> "") by (rewrite strip_blank; congruence).
  rewrite (bind_ok _ _ _ _ _ (check_non_empty_str_ok email _ st He')).
  unfold bind, py_in, py_re_match, ret, raise.
  destruct (PyStr.contains "your-github-username" name); [reflexivity |].
  now destruct (Re.re_match email_regex email).
Qed.

Lemma check_author_content_order_witness :
  _check_author_content
    (PDict {[ "name" := PStr "your-github-username" ]}) Sample.st0
  = (Raise (EmptyField "author.email"), Sample.st0)
  /\ _check_author_content
       (PDict (Sample.author "your-github-username" "nobody")) Sample.st0
     = (Raise PlaceholderDetected, Sample.st0).
Proof.
  split.
  - exact (check_author_content_order
             {[ "name" := PStr "your-github-username" ]}
             "your-github-username" "" Sample.st0 eq_refl eq_refl).
  - exact (check_author_content_order
             (Sample.author "your-github-username" "nobody")
             "your-github-username" "nobody" Sample.st0 eq_refl eq_refl).
Defined.

(** X8. What the e-mail pattern accepts: the strings made of an address of
    the shape (one or more of [A-Za-z0-9_.+-], an at sign, one or more of
    [A-Za-z0-9-], a dot, one or more of [A-Za-z0-9-.]) followed by nothing
    or by a single newline, since [$] also holds before a final newline. *)
Theorem email_pattern_language (email : string) :
  Re.re_match email_regex email = true
  <-> email_shape email
      \/ exists address,
           email = address +:+ String Re.newline "" /\ email_shape address.
Proof.
  rewrite EmailShape.re_match_email. split.
  - intros (e & rest & -> & He & Hr).
    destruct rest as [| c [| c' rest']]; simpl in Hr; try discriminate.
    + left. now rewrite str_app_nil_r.
    + right. apply Ascii.eqb_eq in Hr. subst c. eauto.
  - intros [He | (address & -> & He)].
    + exists email, "". rewrite str_app_nil_r. auto.
    + exists address, (String Re.newline ""). auto.
Qed.

(** ** Malformed references *)

Lemma split_once_spec (sep : ascii) (s a b : string) :
  PyStr.split_once sep s = Some (a, b)
  <-> s = a +:+ String sep b /\ PyStr.contains (String sep "") a = false.
Proof.
  revert a b. induction s as [| c s IH]; intros a b.
  - simpl. split; [discriminate |]. intros [H _]. now destruct a.
  - cbn [PyStr.split_once].
    destruct (Ascii.eqb c sep) eqn:Hc.
    + apply Ascii.eqb_eq in Hc. subst c. split.
      * intros [= <- <-]. auto.
      * intros [Hs Ha]. destruct a as [| x a'].
        -- simpl in Hs. now injection Hs as <-.
        -- simpl in Hs. injection Hs as <- Hs.
           cbn [PyStr.contains String.prefix] in Ha.
           destruct (ascii_dec sep sep) as [_ | Hne];
             [| now contradiction Hne].
           now destruct a'.
    + apply Ascii.eqb_neq in Hc. split.
      * destruct (PyStr.split_once sep s) as [[a' b'] |] eqn:Hs;
          [| discriminate].
        intros [= <- <-].
        destruct (proj1 (IH a' b') eq_refl) as [-> Ha'].
        split; [reflexivity |].
        cbn [PyStr.contains String.prefix].
        destruct (ascii_dec sep c) as [-> | _]; [now contradiction Hc |].
        exact Ha'.
      * intros [Hs Ha]. destruct a as [| x a'].
        -- simpl in Hs. injection Hs as -> _. now contradiction Hc.
        -- simpl in Hs. injection Hs as <- Hs.
           cbn [PyStr.contains String.prefix] in Ha.
           destruct (ascii_dec sep c) as [-> | _]; [now contradiction Hc |].
           cbn [orb] in Ha.
           rewrite (proj2 (IH a' b) (conj Hs Ha)). reflexivity.
Qed.

Lemma contains_char_split (sep : ascii) (s : string) :
  PyStr.contains (String sep "") s = true
  -> exists a b, PyStr.split_once sep s = Some (a, b).
Proof.
  induction s as [| c s IH]; [discriminate |].
  cbn [PyStr.contains String.prefix PyStr.split_once].
  destruct (ascii_dec sep c) as [<- | Hne].
  - intros _. rewrite Ascii.eqb_refl. eauto.
  - cbn [orb]. intros Hs. apply IH in Hs as (a & b & Hs). rewrite Hs.
    destruct (Ascii.eqb c sep) eqn:Hc; eauto.
Qed.

(** X10. A string reference is malformed exactly when it holds no colon;
    otherwise it is split at its first colon, so the module part holds no
    colon and the attribute part may.  A malformed reference is rejected
    before the search path is touched. *)
Theorem check_code_entry_point_malformed (fs : filesystem) (ref : string)
  (root_path : path) (st : interp) :
  (fails_with (_check_code_entry_point fs (PStr ref) root_path) st
     MalformedRef
   <-> PyStr.contains ":" ref = false)
  /\ (PyStr.contains ":" ref = false ->
      _check_code_entry_point fs (PStr ref) root_path st
      = (Raise MalformedRef, st))
  /\ (forall module_name attr_name,
        PyStr.contains ":" module_name = false ->
        PyStr.split_once ":" (module_name +:+ ":" +:+ attr_name)
        = Some (module_name, attr_name)).
Proof.
  assert (Hmal : PyStr.contains ":" ref = false ->
                 _check_code_entry_point fs (PStr ref) root_path st
                 = (Raise MalformedRef, st)).
  { intros Hc. unfold _check_code_entry_point, bind, py_in, ret.
    now rewrite Hc. }
  split; [| split].
  - split.
    + intros Hfail.
      destruct (PyStr.contains ":" ref) eqn:Hc; [| reflexivity].
      exfalso. apply contains_char_split in Hc as (m & a & Hsplit).
      unfold fails_with in Hfail.
      rewrite (check_code_entry_point_unfold fs ref m a root_path st Hsplit)
        in Hfail.
      destruct (find_spec fs m _) as [[[[[p |] locs] |] | e] st1] eqn:Hfind;
        try discriminate Hfail.
      * unfold bind, read_and_parse in Hfail.
        destruct (fs !! p) as [[| content] |]; try discriminate Hfail.
        destruct (as_python content) as [body |]; try discriminate Hfail.
        unfold ret in Hfail.
        destruct (scan_body_result ref a body st1)
          as [[_ Hs] | [_ Hs]]; rewrite Hs in Hfail; discriminate Hfail.
      * pose proof (find_spec_imports fs m
                      (with_sys_path (root_path :: sys_path st) st))
          as [_ Hraise].
        rewrite Hfind in Hraise. injection Hfail as ->.
        destruct (Hraise MalformedRef eq_refl) as [H | [H | [status H]]];
          discriminate H.
    + intros Hc. unfold fails_with. now rewrite (Hmal Hc).
  - exact Hmal.
  - intros module_name attr_name Hm. now apply split_once_spec.
Qed.

(** ** What the checks leave alone *)

Lemma same_frame_refl (st : interp) : same_frame st st.
Proof. split; reflexivity. Qed.

Lemma same_frame_trans (a b c : interp) :
  same_frame a b -> same_frame b c -> same_frame a c.
Proof. unfold same_frame. intros [] []. split; congruence. Qed.

Lemma resolver_failure_handled (e : failure) :
  resolver_failure e -> handled e.
Proof. now intros []. Qed.

(** One step of a proof that a check respects the frame: follow the
    structure of the check. *)
Ltac framed_step :=
  first
    [ apply (respects_ret _ _ same_frame_refl)
    | apply (respects_raise _ _ same_frame_refl);
      first [discriminate | split; discriminate]
    | apply (respects_bind _ _ same_frame_trans); [| intros ?]
    | match goal with
      | |- respects _ _ (match ?x with _ => _ end) => destruct x
      | |- respects _ _ (if ?b then _ else _) => destruct b
      end ].

(** The building blocks write nothing on the error stream, leave the
    search path alone and raise only failures that [main] handles. *)
Lemma framed_print (line : string) :
  respects same_frame resolver_failure (print line).
Proof. apply respects_state; [now split | discriminate]. Qed.

Lemma framed_py_in (item : string) (container : pyval) :
  respects same_frame resolver_failure (py_in item container).
Proof. destruct container; simpl; framed_step. Qed.

Lemma framed_py_getitem (container : pyval) (key : string) :
  respects same_frame resolver_failure (py_getitem container key).
Proof. destruct container; simpl; repeat framed_step. Qed.

Lemma framed_py_get (obj : pyval) (key : string) (dflt : pyval) :
  respects same_frame resolver_failure (py_get obj key dflt).
Proof. destruct obj; simpl; framed_step. Qed.

Create HintDb framed.

#[local] Hint Resolve framed_print framed_py_in framed_py_getitem
  framed_py_get : framed.

Ltac framed :=
  repeat
    (first
       [ solve [auto with framed]
       | solve [apply (respects_implies _ _ _ _ resolver_failure_handled);
                auto with framed]
       | framed_step ]).

Lemma framed_check_non_empty_str (value : pyval) (key_name : string) :
  respects same_frame handled (_check_non_empty_str value key_name).
Proof.
  unfold _check_non_empty_str, py_strip. destruct value; simpl; framed.
Qed.

Lemma framed_validate_dict_schema (data : pyval) (sch : schema)
  (parent_key : string) :
  respects same_frame handled (_validate_dict_schema data sch parent_key).
Proof.
  induction sch as [| [key rules] rest IH]; cbn [_validate_dict_schema];
    framed.
Qed.

#[local] Hint Resolve framed_check_non_empty_str
  framed_validate_dict_schema : framed.

Lemma framed_validate_schema (data : pyval) :
  respects same_frame handled (validate_schema data).
Proof. unfold validate_schema. framed. Qed.

Lemma framed_check_tag (tag : option string) :
  respects same_frame handled (_check_tag tag).
Proof. unfold _check_tag. framed. Qed.

Lemma framed_check_package_name (metadata_name : pyval)
  (expected_name : option string) :
  respects same_frame handled
    (_check_package_name metadata_name expected_name).
Proof. unfold _check_package_name. framed. Qed.

Lemma framed_py_re_match (pattern : Re.regex) (value : pyval) :
  respects same_frame handled (py_re_match pattern value).
Proof. destruct value; simpl; framed. Qed.

#[local] Hint Resolve framed_py_re_match : framed.

Lemma framed_check_author_content (author_data : pyval) :
  respects same_frame handled (_check_author_content author_data).
Proof. unfold _check_author_content. framed. Qed.

Lemma framed_check_asset_path (fs : filesystem) (path_str : pyval)
  (root_path : path) :
  respects same_frame resolver_failure
    (_check_asset_path fs path_str root_path).
Proof. unfold _check_asset_path. framed. Qed.

Lemma framed_scan_body (entry_point attr_name : string) (body : list stmt) :
  respects same_frame resolver_failure (scan_body entry_point attr_name body).
Proof. induction body as [| node rest IH]; simpl; framed. Qed.

Lemma framed_read_and_parse (fs : filesystem) (module_path : path) :
  respects same_frame resolver_failure (read_and_parse fs module_path).
Proof. unfold read_and_parse. framed. Qed.

(** The entry-point check on a reference whose module name has no dot:
    the search path is put back by the [finally] clause, nothing is written
    on the error stream, and the failures are those of the lookup and of the
    scan. *)
Lemma framed_check_code_entry_point (fs : filesystem) (entry_point : pyval)
  (root_path : path) :
  undotted_ref entry_point = true ->
  respects same_frame resolver_failure
    (_check_code_entry_point fs entry_point root_path).
Proof.
  intros Hundotted st.
  destruct entry_point as [| b | z | ref | l | d];
    try (unfold _check_code_entry_point, bind, py_in, ret, raise;
         try destruct (negb _);
         (split; [apply same_frame_refl
                 | intros e [= <-]; split; discriminate])).
  destruct (PyStr.split_once ":" ref) as [[module_name attr_name] |]
    eqn:Hsplit.
  - cbn [undotted_ref] in Hundotted. rewrite Hsplit in Hundotted.
    apply negb_true_iff in Hundotted.
    destruct (check_code_entry_point_undotted fs ref module_name attr_name
                root_path st Hsplit Hundotted)
      as (r & out & Heq & Hfail).
    rewrite Heq. split; [split; reflexivity | exact Hfail].
  - unfold _check_code_entry_point, bind, py_in, ret, raise.
    rewrite Hsplit. destruct (negb _);
      (split; [apply same_frame_refl
              | intros e [= <-]; split; discriminate]).
Qed.

(** Whatever the reference, the entry-point check does not raise the
    complaint about an empty [provides]. *)
Lemma check_code_entry_point_failures (fs : filesystem)
  (entry_point : pyval) (root_path : path) (st : interp) :
  ~ fails_with (_check_code_entry_point fs entry_point root_path) st
      EmptyProvides.
Proof.
  unfold fails_with.
  destruct entry_point as [| b | z | ref | l | d];
    try (unfold _check_code_entry_point, bind, py_in, ret, raise;
         try destruct (negb _); discriminate).
  destruct (PyStr.split_once ":" ref) as [[module_name attr_name] |]
    eqn:Hsplit.
  - rewrite (check_code_entry_point_unfold fs ref module_name attr_name
               root_path st Hsplit).
    pose proof (find_spec_imports fs module_name
                  (with_sys_path (root_path :: sys_path st) st))
      as [_ Hraise].
    destruct (find_spec fs module_name _)
      as [[[[[p |] locs] |] | e] st1]; try discriminate.
    + unfold bind, read_and_parse.
      destruct (fs !! p) as [[| content] |]; try discriminate.
      destruct (as_python content) as [body |]; try discriminate.
      unfold ret.
      destruct (scan_body_result ref attr_name body st1)
        as [[_ Hs] | [_ Hs]]; rewrite Hs; discriminate.
    + cbn [fst]. intros [= ->].
      destruct (Hraise EmptyProvides eq_refl) as [H | [H | [status H]]];
        discriminate H.
  - unfold _check_code_entry_point, bind, py_in, ret, raise.
    rewrite Hsplit. destruct (negb _); discriminate.
Qed.

#[local] Hint Resolve framed_validate_schema framed_check_tag
  framed_check_package_name framed_check_author_content
  framed_check_asset_path : framed.

(** The three ways the loader ends: a document, a parse error, or the
    message for a missing file followed by [sys.exit(1)]. *)
Lemma load_metadata_cases (fs : filesystem) (metadata_file : path)
  (st : interp) :
  (exists content document,
     fs !! metadata_file = Some (File content)
     /\ as_yaml content = Some document
     /\ _load_metadata fs metadata_file st = (Ok document, st))
  \/ _load_metadata fs metadata_file st = (Raise ParseError, st)
  \/ _load_metadata fs metadata_file st
     = (Raise FileNotFound,
        Interp (sys_path st) (executed st) (stdout st)
          ("ERROR: Metadata file not found" :: stderr st)).
Proof.
  unfold _load_metadata.
  destruct (fs !! metadata_file) as [[| content] |]; auto.
  destruct (as_yaml content) as [document |] eqn:Hyaml; [| auto].
  left. exists content, document. auto.
Qed.

(** The loop over the declared assets. *)
Lemma framed_assets (fs : filesystem) (l : list pyval) (root_path : path) :
  respects same_frame resolver_failure
    (for_each l (fun asset_info =>
       match asset_info with
       | PDict _ =>
           let* path_str := py_get asset_info "path" PNone in
           _check_asset_path fs path_str root_path
       | _ => raise AssetNotMapping
       end)).
Proof.
  apply (respects_for_each _ _ same_frame_refl same_frame_trans).
  intros asset_info. destruct asset_info; framed.
Qed.

Lemma framed_provides_checks (fs : filesystem) (d : gmap string pyval)
  (root_path : path) :
  (forall code, d !! "code" = Some code -> undotted_ref code = true) ->
  respects same_frame resolver_failure (provides_checks fs d root_path).
Proof.
  intros Hcode. unfold provides_checks.
  apply (respects_bind _ _ same_frame_trans).
  - destruct (d !! "assets") as [[| | | | l |] |]; try (framed; fail).
    apply framed_assets.
  - intros _. destruct (d !! "code") as [code |]; [| framed].
    now apply framed_check_code_entry_point, Hcode.
Qed.

(** ** The [provides] section *)

(** On a mapping, [_check_provides] complains when neither key is there,
    and otherwise runs the checks of the assets and of the entry point. *)
Lemma check_provides_mapping (fs : filesystem) (d : gmap string pyval)
  (root_path : path) (st : interp) :
  _check_provides fs (PDict d) root_path st
  = match d !! "code", d !! "assets" with
    | None, None => (Raise EmptyProvides, st)
    | _, _ => provides_checks fs d root_path st
    end.
Proof.
  unfold _check_provides, provides_checks.
  unfold bind at 1. cbn [truthy].
  destruct (bool_decide (d = ∅)) eqn:Hempty.
  { apply bool_decide_eq_true in Hempty. subst d.
    rewrite !lookup_empty. reflexivity. }
  cbn [negb]. unfold bind at 1. unfold py_in at 1. unfold ret at 1.
  unfold py_in, py_getitem.
  destruct (d !! "code") as [code |] eqn:Hcode;
    destruct (d !! "assets") as [assets |] eqn:Hassets;
    rewrite ?bool_decide_eq_true_2 by eauto;
    rewrite ?bool_decide_eq_false_2 by (intros [? ?]; discriminate);
    unfold bind, ret, raise; cbn [negb]; reflexivity.
Qed.

(** Once a key is there, the complaint about an empty [provides] is not
    raised any more. *)
Lemma provides_checks_failures (fs : filesystem) (d : gmap string pyval)
  (root_path : path) (st : interp) :
  ~ fails_with (provides_checks fs d root_path) st EmptyProvides.
Proof.
  unfold fails_with, provides_checks, bind.
  match goal with
  | |- context [let '(_, _) := ?m st in _] =>
      assert (Hassets : respects same_frame resolver_failure m)
  end.
  { destruct (d !! "assets") as [[| | | | l |] |]; try (framed; fail).
    apply framed_assets. }
  destruct (Hassets st) as [_ Hfail].
  match goal with
  | |- context [let '(_, _) := ?m st in _] =>
      destruct (m st) as [[[] | e] st1]
  end.
  - destruct (d !! "code") as [code |]; [| discriminate].
    apply check_code_entry_point_failures.
  - cbn [fst]. intros [= ->].
    destruct (Hfail EmptyProvides eq_refl) as [_ H]. now contradiction H.
Qed.

(** X14. On a mapping, [_check_provides] fails with EmptyProvides exactly
    when the mapping has neither a [code] nor an [assets] key (the empty
    mapping included), and then at once, before anything is looked up on
    disk; a key that is present counts whatever its value is. *)
Theorem check_provides_empty (fs : filesystem) (d : gmap string pyval)
  (root_path : path) (st : interp) :
  (fails_with (_check_provides fs (PDict d) root_path) st EmptyProvides
   <-> d !! "code" = None /\ d !! "assets" = None)
  /\ (d !! "code" = None -> d !! "assets" = None ->
      _check_provides fs (PDict d) root_path st = (Raise EmptyProvides, st)).
Proof.
  unfold fails_with. rewrite check_provides_mapping.
  pose proof (provides_checks_failures fs d root_path st) as Hfail.
  unfold fails_with in Hfail.
  destruct (d !! "code") as [code |], (d !! "assets") as [assets |];
    (split; [split |]); try (intros [H1 H2]; discriminate);
    try (intros H; now apply Hfail in H);
    try (intros H1 H2; discriminate); auto.
Qed.

Lemma check_asset_path_ok (fs : filesystem) (path_str : pyval)
  (root_path : path) (st st' : interp) :
  _check_asset_path fs path_str root_path st = (Ok tt, st') ->
  st' = st
  /\ exists s, path_str = PStr s /\ s <> "" /\ (".." ∉ parts (Path s))
               /\ path_exists fs (joinpath root_path s) = true.
Proof.
  unfold _check_asset_path.
  destruct path_str as [| | | s | |]; try discriminate.
  destruct s as [| c s']; [discriminate |]. cbn [PyStr.is_empty].
  destruct (bool_decide (".." ∈ parts (Path (String c s')))) eqn:Hdd;
    [discriminate |].
  destruct (path_exists fs (joinpath root_path (String c s'))) eqn:Hex;
    [| discriminate].
  intros [= <-]. split; [reflexivity |].
  exists (String c s'). apply bool_decide_eq_false in Hdd.
  repeat split; auto.
Qed.

Lemma for_each_assets_ok (fs : filesystem) (root_path : path)
  (l : list pyval) (st st' : interp) :
  for_each l (fun asset_info =>
    match asset_info with
    | PDict _ =>
        let* path_str := py_get asset_info "path" PNone in
        _check_asset_path fs path_str root_path
    | _ => raise AssetNotMapping
    end) st = (Ok tt, st') ->
  st' = st /\ Forall (asset_in_order fs root_path) l.
Proof.
  revert st. induction l as [| a rest IH]; intros st; simpl.
  - intros [= <-]. auto.
  - intros H. apply bind_inv_ok in H as ([] & st1 & Ha & Hrest).
    apply IH in Hrest as [-> Hall].
    destruct a as [| | | | | entry]; try discriminate Ha.
    unfold bind, py_get, ret in Ha.
    apply check_asset_path_ok in Ha as [-> (s & Hs & Hne & Hdd & Hex)].
    split; [reflexivity |]. constructor; [| exact Hall].
    exists entry, s. repeat split; auto.
    destruct (entry !! "path") as [v |]; simpl in Hs; [now subst | discriminate].
Qed.

(** When the checks of a [provides] mapping pass, its assets, if any, are
    a list of entries in order, and its entry point, if any, has passed
    its check. *)
Lemma provides_checks_ok (fs : filesystem) (d : gmap string pyval)
  (root_path : path) (st st' : interp) :
  provides_checks fs d root_path st = (Ok tt, st') ->
  (forall assets, d !! "assets" = Some assets ->
     exists l, assets = PList l /\ Forall (asset_in_order fs root_path) l)
  /\ (forall code, d !! "code" = Some code ->
        succeeds (_check_code_entry_point fs code root_path) st).
Proof.
  unfold provides_checks. intros H.
  apply bind_inv_ok in H as ([] & st1 & Hassets & Hcode).
  assert (Hst : st1 = st
          /\ forall assets, d !! "assets" = Some assets ->
               exists l, assets = PList l
                         /\ Forall (asset_in_order fs root_path) l).
  { destruct (d !! "assets") as [[| | | | l |] |]; try discriminate Hassets.
    - apply for_each_assets_ok in Hassets as [-> Hall].
      split; [reflexivity |]. intros assets [= <-]. eauto.
    - injection Hassets as <-. split; [reflexivity | discriminate]. }
  destruct Hst as [-> Hassets_ok]. split; [exact Hassets_ok |].
  intros code Hc. rewrite Hc in Hcode. exists tt. now rewrite Hcode.
Qed.

(** X15. When [_check_provides] passes on a mapping, every declared asset
    is in order: [assets], if present, is a list of mappings, each with a
    [path] that is a non-empty string without [..] segment and that exists
    below or beside the package root; and the entry point, if present, has
    passed its own check. *)
Theorem check_provides_passes (fs : filesystem) (d : gmap string pyval)
  (root_path : path) (st : interp) :
  succeeds (_check_provides fs (PDict d) root_path) st ->
  (is_Some (d !! "code") \/ is_Some (d !! "assets"))
  /\ (forall assets, d !! "assets" = Some assets ->
        exists l, assets = PList l
                  /\ Forall (asset_in_order fs root_path) l)
  /\ (forall code, d !! "code" = Some code ->
        succeeds (_check_code_entry_point fs code root_path) st).
Proof.
  rewrite succeeds_unit, check_provides_mapping. intros H.
  assert (Hchecks : exists st',
             provides_checks fs d root_path st = (Ok tt, st')
             /\ (is_Some (d !! "code") \/ is_Some (d !! "assets"))).
  { destruct (d !! "code") as [code |], (d !! "assets") as [assets |];
      try discriminate H;
      destruct (provides_checks fs d root_path st) as [r st'];
      simpl in H; subst r; eauto. }
  destruct Hchecks as (st' & Hok & Hsome).
  split; [exact Hsome |]. now apply (provides_checks_ok fs d root_path st st').
Qed.

Lemma check_provides_passes_witness :
  succeeds
    (_check_provides (Sample.tree PNone)
       (PDict {[ "assets" :=
                   PList [PDict {[ "path" := PStr "assets/x.png" ]}] ]})
       Sample.root)
    Sample.st0
  /\ Forall (asset_in_order (Sample.tree PNone) Sample.root)
       [PDict {[ "path" := PStr "assets/x.png" ]}].
Proof.
  assert (Hpass :
    succeeds
      (_check_provides (Sample.tree PNone)
         (PDict {[ "assets" :=
                     PList [PDict {[ "path" := PStr "assets/x.png" ]}] ]})
         Sample.root)
      Sample.st0) by (exists tt; vm_compute; reflexivity).
  split; [exact Hpass |].
  destruct (check_provides_passes _ _ _ _ Hpass) as (_ & Hassets & _).
  destruct (Hassets _ eq_refl) as (l & [= <-] & Hall). exact Hall.
Defined.

(** ** Schema validation, as its callers see it *)

(** X2. On a mapping, schema validation passes exactly when every entry of
    the schema is met: each required key is present, and each key that is
    present has a value of the expected class.  It prints nothing and
    leaves the state as it was. *)
Theorem validate_dict_schema_passes (doc : gmap string pyval) (sch : schema)
  (parent_key : string) (st : interp) :
  (succeeds (_validate_dict_schema (PDict doc) sch parent_key) st
   <-> forall key rules,
         (key, rules) ∈ sch ->
         match doc !! key with
         | Some v => isinstance v (type rules) = true
         | None => required rules = false
         end)
  /\ snd (_validate_dict_schema (PDict doc) sch parent_key st) = st.
Proof.
  destruct (validate_dict_schema_mapping doc sch parent_key st) as [Hok Hst].
  split; [| exact Hst]. rewrite Hok, Forall_forall. split.
  - intros H key rules Hin. specialize (H (key, rules) Hin).
    unfold entry_met in H. cbn [fst snd] in H.
    destruct (doc !! key); [exact H | now apply negb_true_iff].
  - intros H [key rules] Hin. specialize (H key rules Hin).
    unfold entry_met. cbn [fst snd].
    destruct (doc !! key); [exact H | now apply negb_true_iff].
Qed.

(** X4. A mapping passes [validate_schema] exactly when [name] and
    [description] are strings, [author] is a mapping whose [name] and
    [email] are strings, and [provides] is a mapping; other keys, and what
    the strings and [provides] hold, do not matter. *)
Theorem validate_schema_passes (doc : gmap string pyval) (st : interp) :
  succeeds (validate_schema (PDict doc)) st
  <-> (exists name, doc !! "name" = Some (PStr name))
      /\ (exists description, doc !! "description" = Some (PStr description))
      /\ (exists author,
            doc !! "author" = Some (PDict author)
            /\ (exists s, author !! "name" = Some (PStr s))
            /\ (exists s, author !! "email" = Some (PStr s)))
      /\ (exists provides, doc !! "provides" = Some (PDict provides)).
Proof.
  rewrite validate_schema_mapping. split.
  - intros (n & d & a & p & an & ae & H1 & H2 & H3 & H4 & H5 & H6).
    split; [eauto |]. split; [eauto |]. split; [| eauto].
    exists a. eauto.
  - intros ((n & H1) & (d & H2) & (a & H3 & (an & H5) & (ae & H6))
            & (p & H4)).
    exists n, d, a, p, an, ae. auto 10.
Qed.

(** ** The order of the content checks *)

(** X16. Content validation looks at the tag first: with a tag that is not
    a semantic version it fails with InvalidVersion whatever the document
    is (even one that is not a mapping), having printed its banner only. *)
Theorem validate_content_tag_first (fs : filesystem) (data : pyval)
  (root_path : path) (tag : string) (name : option string) (st : interp) :
  tag <> "" ->
  Semver.parse (PyStr.lstrip_chars "v" tag) = false ->
  validate_content fs data root_path (Some tag) name st
  = (Raise InvalidVersion,
     Interp (sys_path st) (executed st)
       ("-> Running content validation..." :: stdout st) (stderr st)).
Proof.
  intros Htag Hparse. unfold validate_content.
  unfold bind at 1. unfold print at 1.
  apply bind_raise. unfold _check_tag.
  apply is_empty_false in Htag. now rewrite Htag, Hparse.
Qed.

Lemma validate_content_tag_first_witness :
  validate_content (Sample.tree PNone) (PInt 7) Sample.root (Some "v1.2")
    None Sample.st0
  = (Raise InvalidVersion,
     Interp (sys_path Sample.st0) (executed Sample.st0)
       ("-> Running content validation..." :: stdout Sample.st0)
       (stderr Sample.st0)).
Proof.
  apply (validate_content_tag_first (Sample.tree PNone) (PInt 7) Sample.root
           "v1.2" None Sample.st0).
  - discriminate.
  - vm_compute. reflexivity.
Defined.

(** ** What a passing run has checked *)

(** A sequence ends well, or with the exit of an imported package, only
    when its first step has passed, if that step raises failures of its own
    only. *)
Lemma bind_inv_exits {A B} (R : interp -> interp -> Prop) (m : M A)
  (k : A -> M B) (st : interp) :
  respects R handled m ->
  passes_or_exits (fst (bind m k st)) ->
  exists a st1, m st = (Ok a, st1) /\ passes_or_exits (fst (k a st1)).
Proof.
  intros Hm. destruct (Hm st) as [_ Hfail]. unfold bind.
  destruct (m st) as [[a | e] st1]; [eauto |].
  intros [[b H] | [status H]]; [discriminate H |].
  injection H as ->. now destruct (Hfail _ eq_refl).
Qed.

Lemma bind_exits_first {A B} (m : M A) (k : A -> M B) (st : interp) :
  passes_or_exits (fst (bind m k st)) -> passes_or_exits (fst (m st)).
Proof.
  unfold bind. destruct (m st) as [[a | e] st1].
  - intros _. left. now exists a.
  - intros [[b H] | [status H]]; [discriminate H |].
    injection H as ->. right. now exists status.
Qed.

Ltac exits_step H a st1 Ha :=
  match type of H with
  | passes_or_exits (fst (bind ?m ?k ?st)) =>
      let Hm := fresh "Hm" in
      assert (Hm : respects same_frame handled m) by framed;
      apply (bind_inv_exits same_frame m k st Hm) in H
        as (a & st1 & Ha & H);
      clear Hm
  end.

(** The exit status is 0 when the pipeline has passed, or when the code of
    an imported package has left the process with status 0. *)
Lemma main_exit_zero (fs : filesystem) (root_path : path)
  (tag name : option string) (st : interp) :
  exit_code (fst (main fs root_path tag name st)) = 0%Z ->
  passes_or_exits
    (fst (pipeline fs root_path tag name
            (snd (print ("Validating package at: /"
                         +:+ PyStr.join "/" root_path) st)))).
Proof.
  rewrite main_exit_code.
  destruct (fst (pipeline fs root_path tag name _)) as [u | e];
    [left; now exists u |].
  destruct e; try discriminate.
  - destruct cls; discriminate.
  - intros _. right. now exists status.
Qed.

(** When the checks of a [provides] mapping get as far as the entry point,
    the declared assets are a list of entries in order. *)
Lemma provides_checks_assets (fs : filesystem) (d : gmap string pyval)
  (root_path : path) (st : interp) :
  passes_or_exits (fst (provides_checks fs d root_path st)) ->
  forall assets, d !! "assets" = Some assets ->
    exists l, assets = PList l /\ Forall (asset_in_order fs root_path) l.
Proof.
  unfold provides_checks. intros H.
  match type of H with
  | passes_or_exits (fst (bind ?m ?k ?st)) =>
      assert (Hm : respects same_frame handled m)
  end.
  { apply (respects_implies _ _ _ _ resolver_failure_handled).
    destruct (d !! "assets") as [[| | | | l |] |]; try (framed; fail).
    apply framed_assets. }
  apply (bind_inv_exits same_frame _ _ _ Hm) in H as ([] & st1 & Hassets & _).
  destruct (d !! "assets") as [[| | | | l |] |]; try discriminate Hassets.
  - apply for_each_assets_ok in Hassets as [_ Hall].
    intros assets [= <-]. eauto.
  - discriminate.
Qed.


(** X19. When a run ends with exit status 0, the metadata file holds a
    mapping whose [provides] is a mapping with [code] or [assets] (or
    both), and every declared asset is in order: a mapping with a [path]
    that is a non-empty string without [..] segment and that exists on
    disk once joined to the package root. *)
Theorem main_success_assets (fs : filesystem) (root_path : path)
  (tag name : option string) (st : interp) :
  exit_code (fst (main fs root_path tag name st)) = 0%Z ->
  exists content doc provides,
    fs !! (root_path ++ [METADATA_FILENAME]) = Some (File content)
    /\ as_yaml content = Some (PDict doc)
    /\ doc !! "provides" = Some (PDict provides)
    /\ (is_Some (provides !! "code") \/ is_Some (provides !! "assets"))
    /\ (forall assets,
          provides !! "assets" = Some assets ->
          exists l, assets = PList l
                    /\ Forall (asset_in_order fs root_path) l).
Proof.
  intros Hexit. apply main_exit_zero in Hexit.
  unfold pipeline in Hexit.
  destruct (load_metadata_cases fs (root_path ++ [METADATA_FILENAME])
              (snd (print ("Validating package at: /"
                           +:+ PyStr.join "/" root_path) st)))
    as [(content & document & Hfile & Hyaml & Hload) | [Hload | Hload]];
    [| rewrite (bind_raise _ _ _ _ _ Hload) in Hexit;
       destruct Hexit as [[a H] | [status H]]; discriminate H ..].
  rewrite (bind_ok _ _ _ _ _ Hload) in Hexit.
  destruct (isinstance document TDict) eqn:Hdict;
    [| destruct Hexit as [[a H] | [status H]]; discriminate H].
  cbn [negb] in Hexit. unfold bind at 1 in Hexit. unfold ret at 1 in Hexit.
  apply isinstance_dict in Hdict as [doc ->].
  exits_step Hexit u st2 Hschema.
  assert (Hs : succeeds (validate_schema (PDict doc))
                 (snd (print ("Validating package at: /"
                              +:+ PyStr.join "/" root_path) st)))
    by (exists u; now rewrite Hschema).
  apply validate_schema_mapping in Hs
    as (n & d & a & provides & an & ae & _ & _ & _ & Hprov & _ & _).
  exists content, doc, provides.
  split; [exact Hfile |]. split; [exact Hyaml |]. split; [exact Hprov |].
  apply bind_exits_first in Hexit. unfold validate_content in Hexit.
  exits_step Hexit u1 s1 H1. exits_step Hexit u2 s2 H2.
  exits_step Hexit v1 s3 H3. exits_step Hexit u3 s4 H4.
  exits_step Hexit v2 s5 H5. exits_step Hexit u4 s6 H6.
  exits_step Hexit v3 s7 H7. exits_step Hexit u5 s8 H8.
  exits_step Hexit v4 s9 H9. exits_step Hexit u6 s10 H10.
  exits_step Hexit v5 s11 Hget.
  apply bind_exits_first in Hexit.
  unfold py_get, ret in Hget. rewrite Hprov in Hget. cbn [default] in Hget.
  injection Hget as <- <-.
  rewrite check_provides_mapping in Hexit.
  assert (Hchecks : passes_or_exits
                      (fst (provides_checks fs provides root_path s10))
                    /\ (is_Some (provides !! "code")
                        \/ is_Some (provides !! "assets"))).
  { destruct (provides !! "code") as [code |],
      (provides !! "assets") as [assets |]; eauto.
    destruct Hexit as [[a0 H] | [status H]]; discriminate H. }
  destruct Hchecks as [Hchecks Hsome]. split; [exact Hsome |].
  now apply (provides_checks_assets fs provides root_path s10).
Qed.

Lemma main_success_assets_witness :
  exists content doc provides,
    Sample.tree
      (Sample.document "a@b.com"
         {[ "code" := PStr "m:f";
            "assets" := PList [PDict {[ "path" := PStr "assets/x.png" ]}] ]})
    !! (Sample.root ++ [METADATA_FILENAME]) = Some (File content)
    /\ as_yaml content = Some (PDict doc)
    /\ doc !! "provides" = Some (PDict provides)
    /\ (is_Some (provides !! "code") \/ is_Some (provides !! "assets"))
    /\ (forall assets,
          provides !! "assets" = Some assets ->
          exists l,
            assets = PList l
            /\ Forall
                 (asset_in_order
                    (Sample.tree
                       (Sample.document "a@b.com"
                          {[ "code" := PStr "m:f";
                             "assets" :=
                               PList
                                 [PDict {[ "path" := PStr "assets/x.png" ]}]
                          ]}))
                    Sample.root) l).
Proof.
  apply (main_success_assets _ Sample.root None None Sample.st0).
  vm_compute. reflexivity.
Defined.

(** ** Packages whose validation imports nothing *)

Lemma framed_check_provides (fs : filesystem) (provides_data : pyval)
  (root_path : path) :
  (forall d code,
     provides_data = PDict d -> d !! "code" = Some code ->
     undotted_ref code = true) ->
  respects same_frame handled (_check_provides fs provides_data root_path).
Proof.
  intros Hcode st.
  destruct provides_data as [| b | z | s | l | d].
  - split; [apply same_frame_refl | intros e [= <-]; discriminate].
  - unfold _check_provides, bind, py_in, raise, ret. cbn [truthy].
    destruct b; cbn [negb fst snd];
      (split; [apply same_frame_refl | intros e [= <-]; discriminate]).
  - unfold _check_provides, bind, py_in, raise, ret.
    destruct (negb (truthy (PInt z))); cbn [fst snd];
      (split; [apply same_frame_refl | intros e [= <-]; discriminate]).
  - unfold _check_provides, bind, py_in, py_getitem, raise, ret.
    destruct (negb (truthy (PStr s))); cbn [fst snd];
      [split; [apply same_frame_refl | intros e [= <-]; discriminate] |].
    destruct (PyStr.contains "code" s), (PyStr.contains "assets" s);
      cbn [negb fst snd];
      (split; [apply same_frame_refl | intros e [= <-]; discriminate]).
  - unfold _check_provides, bind, py_in, py_getitem, raise, ret.
    destruct (negb (truthy (PList l))); cbn [fst snd];
      [split; [apply same_frame_refl | intros e [= <-]; discriminate] |].
    repeat match goal with
           | |- context [existsb ?f l] => destruct (existsb f l)
           end;
      cbn [negb fst snd];
      (split; [apply same_frame_refl | intros e [= <-]; discriminate]).
  - rewrite check_provides_mapping.
    destruct (framed_provides_checks fs d root_path
                (fun code Hc => Hcode d code eq_refl Hc) st)
      as [Hframe Hfail].
    assert (Hh : forall e,
              fst (provides_checks fs d root_path st) = Raise e -> handled e)
      by (intros e He; now apply resolver_failure_handled, Hfail).
    destruct (d !! "code") as [code |], (d !! "assets") as [assets |];
      try (split; [exact Hframe | exact Hh]).
    split; [apply same_frame_refl | intros e [= <-]; discriminate].
Qed.

Lemma framed_validate_content (fs : filesystem) (data : pyval)
  (root_path : path) (tag name : option string) :
  (forall code, declared_code data = Some code -> undotted_ref code = true) ->
  respects same_frame handled (validate_content fs data root_path tag name).
Proof.
  intros Hcode. unfold validate_content.
  do 10 (apply (respects_bind _ _ same_frame_trans);
         [solve [framed] | intros ?]).
  apply (respects_bind_value _ _ same_frame_trans); [solve [framed] |].
  intros provides st st1 Hget.
  apply (respects_bind _ _ same_frame_trans); [| intros _; framed].
  apply framed_check_provides. intros d code -> Hc. apply Hcode.
  destruct data as [| | | | | doc]; try discriminate Hget.
  unfold py_get, ret in Hget. cbn [declared_code].
  destruct (doc !! "provides") as [v |]; cbn [default] in Hget.
  - injection Hget as -> _. exact Hc.
  - injection Hget as <- _. rewrite lookup_empty in Hc. discriminate Hc.
Qed.

(** For a package that imports nothing, the pipeline either stops at a
    missing metadata file, after one message on the error stream, or writes
    nothing there and raises only failures that [main] handles; the search
    path is as it was in both cases. *)
Lemma pipeline_frame (fs : filesystem) (root_path : path)
  (tag name : option string) (st0 : interp) :
  imports_nothing fs root_path = true ->
  sys_path (snd (pipeline fs root_path tag name st0)) = sys_path st0
  /\ ((fst (pipeline fs root_path tag name st0) = Raise FileNotFound
       /\ exists message,
            stderr (snd (pipeline fs root_path tag name st0))
            = message :: stderr st0)
      \/ ((forall e, fst (pipeline fs root_path tag name st0) = Raise e ->
                     handled e)
          /\ stderr (snd (pipeline fs root_path tag name st0))
             = stderr st0)).
Proof.
  intros Hquiet. unfold imports_nothing, package_entry_point in Hquiet.
  unfold pipeline.
  destruct (load_metadata_cases fs (root_path ++ [METADATA_FILENAME]) st0)
    as [(content & document & Hfile & Hyaml & Hload) | [Hload | Hload]].
  - rewrite (bind_ok _ _ _ _ _ Hload).
    rewrite Hfile, Hyaml in Hquiet.
    match goal with
    | |- context [snd (?m st0)] =>
        assert (Hrest : respects same_frame handled m)
    end.
    { do 2 (apply (respects_bind _ _ same_frame_trans);
            [solve [framed] | intros ?]).
      apply (respects_bind _ _ same_frame_trans); [| intros _; framed].
      apply framed_validate_content. intros code Hc.
      now rewrite Hc in Hquiet. }
    destruct (Hrest st0) as [[Herr Hpath] Hfail].
    split; [exact Hpath |]. right. split; [exact Hfail | exact Herr].
  - rewrite (bind_raise _ _ _ _ _ Hload).
    split; [reflexivity |]. right. split; [| reflexivity].
    intros e [= <-]. discriminate.
  - rewrite (bind_raise _ _ _ _ _ Hload).
    split; [reflexivity |]. left. split; [reflexivity |]. simpl. eauto.
Qed.



(** X18. For a package that declares no entry point, or one whose module
    name has no dot, a run leaves the module search path as it found it,
    whatever the outcome: the entry-point check is the only place that
    changes it, and puts it back. *)
Theorem main_restores_sys_path (fs : filesystem) (root_path : path)
  (tag name : option string) (st : interp) :
  imports_nothing fs root_path = true ->
  sys_path (snd (main fs root_path tag name st)) = sys_path st.
Proof.
  intros Hquiet. unfold main. cbn [print snd].
  match goal with
  | |- context [pipeline fs root_path tag name ?s] =>
      destruct (pipeline_frame fs root_path tag name s Hquiet) as [Hp _];
      destruct (pipeline fs root_path tag name s) as [[[] | e] st1]
  end; cbn [fst snd sys_path] in Hp.
  - exact Hp.
  - now destruct (exc_of e).
Qed.

Lemma main_restores_sys_path_witness :
  sys_path
    (snd (main (Sample.tree (Sample.document "a@b.com"
                               {[ "code" := PStr "m:missing" ]}))
            Sample.root None None Sample.st0))
  = sys_path Sample.st0.
Proof.
  apply (main_restores_sys_path
           (Sample.tree (Sample.document "a@b.com"
                           {[ "code" := PStr "m:missing" ]}))
           Sample.root None None Sample.st0).
  vm_compute. reflexivity.
Defined.

(** ** The entry-point check on a module name without dots *)



Lemma check_asset_path_relative_under_witness :
  path_exists (Sample.tree PNone) (joinpath Sample.root "assets/x.png") = true
  /\ resolves_under (Sample.tree PNone) Sample.root
       (joinpath Sample.root "assets/x.png").
Proof.
  apply (check_asset_path_relative_under (Sample.tree PNone) "assets/x.png"
           Sample.root Sample.st0).
  - intros Hin. apply list_elem_of_singleton in Hin. discriminate Hin.
  - reflexivity.
  - exists tt. vm_compute. reflexivity.
Defined.

Lemma check_code_entry_point_undotted_runs_nothing_witness :
  executed
    (snd (_check_code_entry_point (Sample.tree PNone) (PStr "m:f")
            Sample.root Sample.st0))
  = executed Sample.st0.
Proof.
  apply (check_code_entry_point_undotted_runs_nothing (Sample.tree PNone)
           "m:f" "m" "f" Sample.root Sample.st0); reflexivity.
Defined.

Lemma scan_body_first_match_witness :
  scan_body "m:f" "f"
    ([OtherStmt; FunctionDef "g" [FunctionDef "f" []]]
     ++ Assign [Name "e"; Name "f"] :: [ClassDef "f" []])
    Sample.st0
  = print "   ... Code entry point 'm:f' OK" Sample.st0.
Proof.
  apply (scan_body_first_match "m:f" "f"
           [OtherStmt; FunctionDef "g" [FunctionDef "f" []]]
           [ClassDef "f" []] (Assign [Name "e"; Name "f"]) Sample.st0).
  - repeat constructor; intros H; inversion H.
  - constructor. apply list_elem_of_further, list_elem_of_here.
Defined.
